(** * Inline chat edit strategies

    A shallow embedding of
    [src/vs/workbench/contrib/inlineChat/browser/inlineChatStrategies.ts]:
    the nearest-hunk selection of [LivePreviewStrategy._updateDiffZones] and
    [LiveStrategy.renderChanges], the accept/discard cycle with its two
    session notifications, [EditModeStrategy._makeChanges],
    [PreviewStrategy.apply], [cancel] and [undoModelUntil].

    Line numbers, version identifiers and counters are JavaScript numbers
    holding integers; they are modelled as [Z] (no wrap-around exists for
    them, and the values involved stay far below 2^53).  The effect trace
    of [_makeChanges] carries durations and rates as exact rationals, which
    is enough for the order of the effects and for the text they leave; the
    rate itself is computed on IEEE 754 doubles (the primitive floats) in
    [durationInSecDouble] and [speedOfDouble]. *)

From Stdlib Require Import Floats.
From Stdlib Require Import ZArith List Bool Lia QArith Ascii String.
From stdpp Require Import base option list gmap strings.

Local Open Scope Z_scope.

(** ** Data model *)

(** [HunkState] of [inlineChatSession]. *)
Inductive HunkState : Type :=
  | Pending
  | Accepted
  | Discarded.

#[global] Instance HunkState_eq_dec : EqDecision HunkState.
Proof. solve_decision. Defined.

(** [Position] and [Range] of [vs/editor/common/core]. *)
Record Position : Type := mkPosition {
  lineNumber : Z;
  column : Z
}.

Record Range : Type := mkRange {
  startLineNumber : Z;
  startColumn : Z;
  endLineNumber : Z;
  endColumn : Z
}.

Definition getStartPosition (r : Range) : Position :=
  mkPosition (startLineNumber r) (startColumn r).

(** A [HunkInformation] object of the session's hunk store.  [hunk_id] is
    the identity of the JavaScript object (it is what keys
    [_hunkDisplayData]); [hunk_rangeN] is [getRangesN()[0]], the modified
    range in the current document; [hunk_state] is [getState()]. *)
Record Hunk : Type := mkHunk {
  hunk_id : nat;
  hunk_rangeN : Range;
  hunk_state : HunkState
}.

Definition isPending (h : Hunk) : bool :=
  bool_decide (hunk_state h = Pending).

Definition isAccepted (h : Hunk) : bool :=
  bool_decide (hunk_state h = Accepted).

(** ** Distance of a hunk from the zone line

    [zoneLineNumber <= r.startLineNumber
       ? r.startLineNumber - zoneLineNumber
       : zoneLineNumber - r.endLineNumber]
    (the same expression in [_updateDiffZones] and twice in
    [renderChanges]). *)
Definition distance (zoneLineNumber : Z) (modifiedRange : Range) : Z :=
  if zoneLineNumber <=? startLineNumber modifiedRange
  then startLineNumber modifiedRange - zoneLineNumber
  else zoneLineNumber - endLineNumber modifiedRange.

(** The distance as the specification words it, with a third case that
    yields 0 strictly inside the hunk. *)
Definition distance_spec (zoneLineNumber : Z) (modifiedRange : Range) : Z :=
  if zoneLineNumber <=? startLineNumber modifiedRange
  then startLineNumber modifiedRange - zoneLineNumber
  else if endLineNumber modifiedRange <=? zoneLineNumber
       then zoneLineNumber - endLineNumber modifiedRange
       else 0.

(** ** Session notifications and the bound hunk actions *)

(** The two emitters [_onDidAccept] and [_onDidDiscard]; a strategy's
    history of [fire()] calls is a list of them, oldest first. *)
Inductive SessionEvent : Type :=
  | DidAccept
  | DidDiscard.

#[global] Instance SessionEvent_eq_dec : EqDecision SessionEvent.
Proof. solve_decision. Defined.

(** What [this.acceptHunk] and [this.discardHunk] currently are: the
    methods of [EditModeStrategy] (which fire the emitter), or the pair of
    closures that a rendering bound to the hunk it found nearest
    ([NoActions] is [async () => nearest?.accept()] with [nearest]
    undefined). *)
Inductive HunkActions : Type :=
  | BaseActions
  | NoActions
  | NearestActions (hunk : nat).

Inductive UserAction : Type :=
  | AcceptHunk
  | DiscardHunk.

Definition firedEvent (a : UserAction) : SessionEvent :=
  match a with
  | AcceptHunk => DidAccept
  | DiscardHunk => DidDiscard
  end.

Definition resolvedState (a : UserAction) : HunkState :=
  match a with
  | AcceptHunk => Accepted
  | DiscardHunk => Discarded
  end.

(** [hunks.find(hunk => hunk.getState() === HunkState.Accepted)] and the
    [oneAccepted] loop decide between the two notifications. *)
Definition terminalEvent (hunks : list Hunk) : SessionEvent :=
  if existsb isAccepted hunks then DidAccept else DidDiscard.

(** Modelled from the spec: [HunkInformation.acceptChanges] and
    [discardChanges] live in [inlineChatSession], which is not part of the
    sources at hand.  Section 4.3: [Pending -> Accepted] and
    [Pending -> Discarded] are the only transitions, nothing leaves
    [Accepted] or [Discarded]. *)
Definition resolveHunk (a : UserAction) (hunk : nat) (h : Hunk) : Hunk :=
  if bool_decide (hunk_id h = hunk) && isPending h
  then mkHunk (hunk_id h) (hunk_rangeN h) (resolvedState a)
  else h.

(** Modelled from the spec: [HunkData.discardAll] of [inlineChatSession]
    "moves every still-Pending hunk to Discarded". *)
Definition discardPending (h : Hunk) : Hunk :=
  if isPending h then mkHunk (hunk_id h) (hunk_rangeN h) Discarded else h.

Definition discardedState (s : HunkState) : HunkState :=
  match s with
  | Pending => Discarded
  | _ => s
  end.

(** [Data] of [_updateDiffZones]: the candidate kept in [nearest].  The
    [accept] and [discard] closures capture the hunk, recorded as
    [data_hunk]. *)
Record Data : Type := mkData {
  data_position : Position;
  data_distance : Z;
  data_hunk : nat
}.

(** [HunkDisplayData] of [LiveStrategy].  [dd_decorated] stands for the
    decorations and the view zone of the hunk: set when the entry is
    created, cleared by [remove()].  The closures [acceptHunk] and
    [discardHunk] of an entry capture the hunk that keys it. *)
Record HunkDisplayData : Type := mkHunkDisplayData {
  dd_decorated : bool;
  dd_distance : Z;
  dd_position : Position
}.

Definition dd_remove (data : HunkDisplayData) : HunkDisplayData :=
  mkHunkDisplayData false (dd_distance data) (dd_position data).

(** State of a [LivePreviewStrategy] together with the session's hunk store
    ([hunkData.getInfo()], in its order) and the line of the zone widget's
    position ([_zone.position!.lineNumber]: the zone is shown). *)
Record LivePreview : Type := mkLivePreview {
  lp_hunks : list Hunk;
  lp_zoneLine : Z;
  lp_diffZonePool : nat;
  lp_actions : HunkActions;
  lp_events : list SessionEvent
}.

(** State of a [LiveStrategy]. *)
Record Live : Type := mkLive {
  ls_hunks : list Hunk;
  ls_zoneLine : Z;
  ls_hunkDisplayData : gmap nat HunkDisplayData;
  ls_actions : HunkActions;
  ls_events : list SessionEvent
}.

(** [h] is the nearest hunk of [hunks]: no hunk is nearer, and the hunks
    listed before it are strictly farther. *)
Definition isNearestIn (zoneLineNumber : Z) (hunks : list Hunk) (h : Hunk)
  : Prop :=
  exists before after,
    hunks = before ++ h :: after /\
    Forall (fun h' => distance zoneLineNumber (hunk_rangeN h)
                      < distance zoneLineNumber (hunk_rangeN h')) before /\
    Forall (fun h' => distance zoneLineNumber (hunk_rangeN h)
                      <= distance zoneLineNumber (hunk_rangeN h')) after.

Definition pendingState (st : HunkState) : bool :=
  bool_decide (st = Pending).

Section Strategies.

(** [Position.delta(deltaLineNumber)] of [vs/editor/common/core/position]. *)
Variable delta : Position -> Z -> Position.

(** The line of [_zone.position] after
    [_zone.updatePositionAndHeight(position)], from the line before it
    ([InlineChatZoneWidget] is not part of the sources at hand). *)
Variable updatePositionAndHeight : Z -> Position -> Z.

(** The store after the document text of a hunk was accepted or discarded:
    the ranges of the hunks are tracked by the document and may move;
    identities and states do not (the hypotheses [retrack_ids] and
    [retrack_states] of the properties below). *)
Variable retrack : list Hunk -> list Hunk.

Definition acceptChanges (hunk : nat) (hunks : list Hunk) : list Hunk :=
  retrack (map (resolveHunk AcceptHunk hunk) hunks).

Definition discardChanges (hunk : nat) (hunks : list Hunk) : list Hunk :=
  retrack (map (resolveHunk DiscardHunk hunk) hunks).

Definition resolveChanges (a : UserAction) (hunk : nat) (hunks : list Hunk)
  : list Hunk :=
  match a with
  | AcceptHunk => acceptChanges hunk hunks
  | DiscardHunk => discardChanges hunk hunks
  end.

Definition discardAll (hunks : list Hunk) : list Hunk :=
  retrack (map discardPending hunks).

(** *** [LivePreviewStrategy._updateDiffZones] *)

(** One round of the [for] loop over the pending hunks:
    [if (!nearest || nearest.distance > distance) nearest = {...}]. *)
Definition nearestStep (zoneLineNumber : Z) (nearest : option Data)
    (hunk : Hunk) : option Data :=
  let modifiedRange := hunk_rangeN hunk in
  let d := distance zoneLineNumber modifiedRange in
  let candidate :=
    mkData (delta (getStartPosition modifiedRange) (-1)) d (hunk_id hunk) in
  match nearest with
  | None => Some candidate
  | Some n => if data_distance n >? d then Some candidate else nearest
  end.

Definition nearestOf (zoneLineNumber : Z) (hunks : list Hunk) : option Data :=
  fold_left (nearestStep zoneLineNumber) hunks None.

(** The candidate [n] was built from the hunk [h]. *)
Definition builtFrom (zone : Z) (n : Data) (h : Hunk) : Prop :=
  data_hunk n = hunk_id h /\
  data_distance n = distance zone (hunk_rangeN h) /\
  data_position n = delta (getStartPosition (hunk_rangeN h)) (-1).

Definition pendingHunks (hunks : list Hunk) : list Hunk :=
  List.filter isPending hunks.

Definition lp_fire (e : SessionEvent) (s : LivePreview) : LivePreview :=
  mkLivePreview (lp_hunks s) (lp_zoneLine s) (lp_diffZonePool s)
    (lp_actions s) (lp_events s ++ [e]).

Definition _updateDiffZones (s : LivePreview) : LivePreview * option Position :=
  let hunks := pendingHunks (lp_hunks s) in
  if (length hunks =? 0)%nat
  then (lp_fire (terminalEvent (lp_hunks s)) s, None)
  else
    let pool := Nat.max (lp_diffZonePool s) (length hunks) in
    match nearestOf (lp_zoneLine s) hunks with
    | Some nearest =>
        (mkLivePreview (lp_hunks s)
           (updatePositionAndHeight (lp_zoneLine s) (data_position nearest))
           pool (NearestActions (data_hunk nearest)) (lp_events s),
         Some (data_position nearest))
    | None =>
        (mkLivePreview (lp_hunks s) (lp_zoneLine s) pool NoActions
           (lp_events s), None)
    end.

Definition lp_renderChanges (s : LivePreview) : LivePreview * option Position :=
  _updateDiffZones s.

(** [acceptHunk()] and [discardHunk()]: the base methods fire; the bound
    closures run [hunk.acceptChanges()] (or [discardChanges()]) and then
    [handleDiff()]. *)
Definition lp_act (a : UserAction) (s : LivePreview) : LivePreview :=
  match lp_actions s with
  | BaseActions => lp_fire (firedEvent a) s
  | NoActions => s
  | NearestActions hunk =>
      fst (_updateDiffZones
             (mkLivePreview (resolveChanges a hunk (lp_hunks s))
                (lp_zoneLine s) (lp_diffZonePool s) (lp_actions s)
                (lp_events s)))
  end.

Definition lp_run (acts : list UserAction) (s : LivePreview) : LivePreview :=
  fold_left (fun s a => lp_act a s) acts s.

(** [cancel()] is inherited from [EditModeStrategy]. *)
Definition lp_cancel (s : LivePreview) : LivePreview :=
  mkLivePreview (discardAll (lp_hunks s)) (lp_zoneLine s)
    (lp_diffZonePool s) (lp_actions s) (lp_events s).

(** *** [LiveStrategy.renderChanges] *)

(** State of the [for (const hunkData of getInfo())] loop of [renderHunks]:
    the display map and [widgetData], a reference to one of the map's
    entries (held as the key of the entry). *)
Definition widgetDistance (m : gmap nat HunkDisplayData) (w : nat) : option Z :=
  dd_distance <$> (m !! w).

Definition renderStep (zoneLineNumber : Z)
    (acc : gmap nat HunkDisplayData * option nat) (hunkData : Hunk)
  : gmap nat HunkDisplayData * option nat :=
  let '(m, widgetData) := acc in
  let r := hunk_rangeN hunkData in
  let k := hunk_id hunkData in
  let fresh :=
    mkHunkDisplayData true (distance zoneLineNumber r)
      (delta (getStartPosition r) (-1)) in
  let m' :=
    match m !! k with
    | None => <[k := fresh]> m
    | Some data =>
        if negb (isPending hunkData)
        then <[k := dd_remove data]> m
        else <[k := mkHunkDisplayData (dd_decorated data)
                      (distance zoneLineNumber r)
                      (delta (getStartPosition r) (-1))]> m
    end in
  let better :=
    match widgetData with
    | None => true
    | Some w =>
        match widgetDistance m' k, widgetDistance m' w with
        | Some d, Some dw => d <? dw
        | _, _ => false
        end
    end in
  (m', if isPending hunkData && better then Some k else widgetData).

Definition renderLoop (zoneLineNumber : Z) (m : gmap nat HunkDisplayData)
    (hunks : list Hunk) : gmap nat HunkDisplayData * option nat :=
  fold_left (renderStep zoneLineNumber) hunks (m, None).

(** The entry of [h] in the display map [m] holds the distance and the
    position computed from the hunk's range as it is now. *)
Definition displayFresh (zone : Z) (m : gmap nat HunkDisplayData) (h : Hunk)
  : Prop :=
  exists data,
    m !! hunk_id h = Some data /\
    dd_distance data = distance zone (hunk_rangeN h) /\
    dd_position data = delta (getStartPosition (hunk_rangeN h)) (-1).

(** What holds of the display map [m] and of [widgetData] once the loop has
    gone through the hunks [pre]. *)
Definition renderInv (zone : Z) (pre : list Hunk)
    (acc : gmap nat HunkDisplayData * option nat) : Prop :=
  (forall h, In h pre -> is_Some (fst acc !! hunk_id h)) /\
  (forall h, In h (pendingHunks pre) -> displayFresh zone (fst acc) h) /\
  match snd acc with
  | None => pendingHunks pre = []
  | Some k => exists h, k = hunk_id h /\ isNearestIn zone (pendingHunks pre) h
  end.

(** [for (const key of keysNow)]: the entries whose hunk is no longer in
    the store are deleted (and their decorations removed). *)
Definition dropStale (hunks : list Hunk) (m : gmap nat HunkDisplayData)
  : gmap nat HunkDisplayData :=
  filter (fun kv => fst kv ∈ map hunk_id hunks) m.

Definition ls_fire (e : SessionEvent) (s : Live) : Live :=
  mkLive (ls_hunks s) (ls_zoneLine s) (ls_hunkDisplayData s) (ls_actions s)
    (ls_events s ++ [e]).

Definition renderHunks (s : Live) : Live * option HunkDisplayData :=
  let '(m, w) := renderLoop (ls_zoneLine s) (ls_hunkDisplayData s) (ls_hunks s) in
  let widgetData := w ≫= fun k => (fun d => (k, d)) <$> (m !! k) in
  let m' := dropStale (ls_hunks s) m in
  match widgetData with
  | Some (k, data) =>
      (mkLive (ls_hunks s)
         (updatePositionAndHeight (ls_zoneLine s) (dd_position data))
         m' (NearestActions k) (ls_events s),
       Some data)
  | None =>
      let s' := mkLive (ls_hunks s) (ls_zoneLine s) m' (ls_actions s)
                  (ls_events s) in
      if (0 <? size m')%nat
      then (ls_fire (terminalEvent (ls_hunks s)) s', None)
      else (s', None)
  end.

Definition ls_renderChanges (s : Live) : Live * option Position :=
  let '(s', widgetData) := renderHunks s in
  (s', dd_position <$> widgetData).

Definition ls_act (a : UserAction) (s : Live) : Live :=
  match ls_actions s with
  | BaseActions => ls_fire (firedEvent a) s
  | NoActions => s
  | NearestActions hunk =>
      fst (renderHunks
             (mkLive (resolveChanges a hunk (ls_hunks s)) (ls_zoneLine s)
                (ls_hunkDisplayData s) (ls_actions s) (ls_events s)))
  end.

Definition ls_run (acts : list UserAction) (s : Live) : Live :=
  fold_left (fun s a => ls_act a s) acts s.

(** [_resetDiff()]: every entry of the display map is [remove()]d. *)
Definition _resetDiff (s : Live) : Live :=
  mkLive (ls_hunks s) (ls_zoneLine s) (dd_remove <$> ls_hunkDisplayData s)
    (ls_actions s) (ls_events s).

(** [LiveStrategy.cancel]: [this._resetDiff(); return super.cancel();]. *)
Definition ls_cancel (s : Live) : Live :=
  let s' := _resetDiff s in
  mkLive (discardAll (ls_hunks s')) (ls_zoneLine s') (ls_hunkDisplayData s')
    (ls_actions s') (ls_events s').

End Strategies.

(** A rendered state with [n] pending hunks: while a hunk is pending, the
    actions are bound to a pending hunk of the store. *)
Definition lpReady (n : nat) (s : LivePreview) : Prop :=
  NoDup (map hunk_id (lp_hunks s)) /\
  length (pendingHunks (lp_hunks s)) = n /\
  (n <> O ->
   exists h, In h (lp_hunks s) /\ hunk_state h = Pending /\
             lp_actions s = NearestActions (hunk_id h)).

(** The same for a [LiveStrategy]. *)
Definition lsReady (n : nat) (t : Live) : Prop :=
  NoDup (map hunk_id (ls_hunks t)) /\
  length (pendingHunks (ls_hunks t)) = n /\
  (n <> O ->
   exists h, In h (ls_hunks t) /\ hunk_state h = Pending /\
             ls_actions t = NearestActions (hunk_id h)).


(** ** Undo: [undoModelUntil] *)

(** The part of the [ITextModel] interface that [undoModelUntil] calls. *)
Class ITextModel (M : Type) : Type := {
  getAlternativeVersionId : M -> Z;
  canUndo : M -> bool;
  undo : M -> M
}.

(** The loop condition
    [targetAltVersion < model.getAlternativeVersionId() && model.canUndo()]. *)
Definition undoCondition {M : Type} `{ITextModel M} (targetAltVersion : Z)
    (model : M) : bool :=
  (targetAltVersion <? getAlternativeVersionId model) && canUndo model.

(** [undoModelUntil]: the [while] loop, bounded by [fuel] rounds.  The
    result is the number of [model.undo()] calls issued and the model the
    loop leaves; [None] means the fuel ran out before the loop ended. *)
Fixpoint undoModelUntil {M : Type} `{ITextModel M} (fuel : nat) (model : M)
    (targetAltVersion : Z) : option (nat * M) :=
  match fuel with
  | O => None
  | S fuel' =>
      if undoCondition targetAltVersion model
      then match undoModelUntil fuel' (undo model) targetAltVersion with
           | Some (n, model') => Some (S n, model')
           | None => None
           end
      else Some (O, model)
  end.

(** Modelled from the spec: the text model itself is not part of the
    sources at hand.  Sections 3 and 6: the document carries an
    alternative-version counter and a single-step undo; a document is
    taken as its current alternative version and the versions that
    successive undo steps restore, nearest first. *)
Record UndoStackModel : Type := mkUndoStackModel {
  usm_version : Z;
  usm_undoStack : list Z
}.

Definition usm_undo (m : UndoStackModel) : UndoStackModel :=
  match usm_undoStack m with
  | [] => m
  | v :: rest => mkUndoStackModel v rest
  end.

#[global] Instance UndoStackModel_ITextModel : ITextModel UndoStackModel := {
  getAlternativeVersionId := usm_version;
  canUndo := fun m => negb (bool_decide (usm_undoStack m = []));
  undo := usm_undo
}.

(** Every undo step restores a strictly older alternative version. *)
Fixpoint versionsDescend (v : Z) (stack : list Z) : Prop :=
  match stack with
  | [] => True
  | w :: rest => w < v /\ versionsDescend w rest
  end.

(** ** Applying edits: [EditModeStrategy._makeChanges] *)

(** [ISingleEditOperation]: [text] may be [null]. *)
Record ISingleEditOperation : Type := mkEdit {
  edit_range : Range;
  edit_text : option string
}.

(** A cancellation token, as the number of timer ticks after which
    cancellation is requested ([None]: never). *)
Record CancellationToken : Type := mkToken {
  cancelAfter : option nat
}.

(** [ProgressingEditsOptions]; [duration] is in milliseconds. *)
Record ProgressingEditsOptions : Type := mkOptions {
  duration : Q;
  token : CancellationToken
}.

(** The value of a JavaScript division in the effect trace, with exact
    rationals standing for the finite doubles: a zero divisor yields [NaN]
    or an infinity instead of raising.  Rounding, underflow and overflow are
    left out here; [speedOfDouble] below computes the rate on doubles. *)
Inductive JsNumber : Type :=
  | Finite (q : Q)
  | NaN
  | Infinity
  | NegInfinity.

Definition js_div (a b : Q) : JsNumber :=
  if Qeq_bool b 0
  then if Qeq_bool a 0 then NaN
       else if Qle_bool 0 a then Infinity else NegInfinity
  else Finite (a / b).

Definition isFinite (x : JsNumber) : bool :=
  match x with
  | Finite _ => true
  | _ => false
  end.

(** [const durationInSec = opts.duration / 1000]. *)
Definition durationInSec (opts : ProgressingEditsOptions) : Q :=
  (duration opts / 1000)%Q.

(** [edit.text ?? ''] *)
Definition textOf (edit : ISingleEditOperation) : string :=
  default EmptyString (edit_text edit).

(** What [_makeChanges] does to its collaborators, in order. *)
Inductive Effect : Type :=
  | PushUndoStop
  | ObsStart
  | ObsStop
  | PushEditOperations (edits : list ISingleEditOperation) (progress : bool)
  | PerformAsyncTextEdit (edit : ISingleEditOperation) (speed : JsNumber)
      (token : CancellationToken) (progress : bool).

Definition isPushUndoStop (e : Effect) : bool :=
  match e with
  | PushUndoStop => true
  | _ => false
  end.

Record EditModeStrategy : Type := mkStrategy {
  _editCount : Z
}.

Inductive StrategyKind : Type :=
  | PreviewKind
  | LivePreviewKind
  | LiveKind.

(** A call of [makeChanges] or of [makeProgressiveChanges]. *)
Inductive Call : Type :=
  | MakeChanges (edits : list ISingleEditOperation)
  | MakeProgressiveChanges (edits : list ISingleEditOperation)
      (opts : ProgressingEditsOptions).

Section MakeChanges.

(** [countWords] of [vs/workbench/contrib/chat/common/chatWordCounter]. *)
Variable countWords : string -> Z.

(** [const wordCount = countWords(edit.text ?? '');
     const speed = wordCount / durationInSec;] *)
Definition speedOf (edit : ISingleEditOperation)
    (opts : ProgressingEditsOptions) : JsNumber :=
  let wordCount := countWords (textOf edit) in
  js_div (inject_Z wordCount) (durationInSec opts).

Definition _makeChanges (s : EditModeStrategy)
    (edits : list ISingleEditOperation)
    (opts : option ProgressingEditsOptions) (progress : bool)
  : EditModeStrategy * list Effect :=
  let count := _editCount s + 1 in
  let undoStop := if count =? 1 then [PushUndoStop] else [] in
  (mkStrategy count,
   undoStop ++
   match opts with
   | Some o =>
       map (fun edit =>
              PerformAsyncTextEdit edit (speedOf edit o) (token o) progress)
           edits
   | None => [ObsStart; PushEditOperations edits progress; ObsStop]
   end).

(** All three strategies pass no options and no progress. *)
Definition makeChanges (kind : StrategyKind) (s : EditModeStrategy)
    (edits : list ISingleEditOperation) : EditModeStrategy * list Effect :=
  _makeChanges s edits None false.

(** [PreviewStrategy] passes no progress; the two live strategies pass
    one. *)
Definition makeProgressiveChanges (kind : StrategyKind)
    (s : EditModeStrategy) (edits : list ISingleEditOperation)
    (opts : ProgressingEditsOptions) : EditModeStrategy * list Effect :=
  _makeChanges s edits (Some opts)
    match kind with
    | PreviewKind => false
    | _ => true
    end.

Definition doCall (kind : StrategyKind) (s : EditModeStrategy) (c : Call)
  : EditModeStrategy * list Effect :=
  match c with
  | MakeChanges edits => makeChanges kind s edits
  | MakeProgressiveChanges edits opts => makeProgressiveChanges kind s edits opts
  end.

Fixpoint doCalls (kind : StrategyKind) (s : EditModeStrategy)
    (calls : list Call) : EditModeStrategy * list Effect :=
  match calls with
  | [] => (s, [])
  | c :: rest =>
      let '(s1, effects1) := doCall kind s c in
      let '(s2, effects2) := doCalls kind s1 rest in
      (s2, effects1 ++ effects2)
  end.

End MakeChanges.

(** ** The rate, in double precision

    A JavaScript number is an IEEE 754 binary64 value and [/] is the
    correctly rounded division: the primitive floats and their division. *)

(** The number that holds an integer: the double nearest to it. *)
Definition Number_ofZ (z : Z) : float :=
  SF2Prim (binary_normalize prec emax z 0 false).

Definition Number_isNaN (x : float) : bool :=
  match classify x with
  | FloatClass.NaN => true
  | _ => false
  end.

Definition Number_isFinite (x : float) : bool :=
  match classify x with
  | FloatClass.NaN | PInf | NInf => false
  | _ => true
  end.

(** [x === 0], which holds of [0] and of [-0]. *)
Definition isZero (x : float) : bool :=
  match classify x with
  | PZero | NZero => true
  | _ => false
  end.

(** [const durationInSec = opts.duration / 1000]. *)
Definition durationInSecDouble (duration : float) : float :=
  (duration / 1000)%float.

Section Rate.

Variable countWords : string -> Z.

(** [const wordCount = countWords(edit.text ?? '');
     const speed = wordCount / durationInSec;] *)
Definition speedOfDouble (edit : ISingleEditOperation) (duration : float)
  : float :=
  let wordCount := Number_ofZ (countWords (textOf edit)) in
  (wordCount / durationInSecDouble duration)%float.

(** The [for] loop of the progressive branch of [_makeChanges]: the edits
    and the rates handed to [asProgressiveEdit], in the order of the
    calls. *)
Definition ratesOf (edits : list ISingleEditOperation) (duration : float)
  : list (ISingleEditOperation * float) :=
  map (fun edit => (edit, speedOfDouble edit duration)) edits.

End Rate.

(** ** The document under the edits *)

Fixpoint str_take (n : nat) (s : string) : string :=
  match n, s with
  | S n', String c s' => String c (str_take n' s')
  | _, _ => EmptyString
  end.

Fixpoint str_drop (n : nat) (s : string) : string :=
  match n, s with
  | S n', String _ s' => str_drop n' s'
  | _, _ => s
  end.

(** Replace the text between two offsets, the offsets brought into the
    document first (as a text model validates the ranges it is given). *)
Definition replaceOffsets (doc : string) (s e : nat) (text : string) : string :=
  let s' := Nat.min s (String.length doc) in
  let e' := Nat.max s' (Nat.min e (String.length doc)) in
  String.append (str_take s' doc) (String.append text (str_drop e' doc)).

(** The parts of a progressive edit after the first are inserted at the end
    of the range the edit has filled so far. *)
Fixpoint insertParts (doc : string) (anchorEnd : nat) (parts : list string)
  : string :=
  match parts with
  | [] => doc
  | part :: rest =>
      insertParts (replaceOffsets doc anchorEnd anchorEnd part)
        (anchorEnd + String.length part) rest
  end.

Definition concatParts (parts : list string) : string :=
  fold_right String.append EmptyString parts.

Section Document.

(** The offset of a position in a document's text. *)
Variable getOffsetAt : string -> Position -> nat.

(** The parts into which the timeline splits a text at a given rate. *)
Variable subEdits : string -> JsNumber -> list string.

Definition startOffset (doc : string) (edit : ISingleEditOperation) : nat :=
  getOffsetAt doc (getStartPosition (edit_range edit)).

Definition endOffset (doc : string) (edit : ISingleEditOperation) : nat :=
  getOffsetAt doc
    (mkPosition (endLineNumber (edit_range edit)) (endColumn (edit_range edit))).

(** Modelled from the spec: [ITextModel.pushEditOperations] is not part of
    the sources at hand.  Section 3: an edit operation is "a replacement of
    a range in the current document with new text"; section 5: "edits
    within one apply call are applied in list order". *)
Definition applyEdit (doc : string) (edit : ISingleEditOperation) : string :=
  replaceOffsets doc (startOffset doc edit) (endOffset doc edit) (textOf edit).

Definition pushEditOperations (doc : string)
    (edits : list ISingleEditOperation) : string :=
  fold_left applyEdit edits doc.

(** Modelled from the spec: [asProgressiveEdit] of [./utils] is not part
    of the sources at hand.  Section 4.1: a finite sequence of sub-edits,
    cut short when cancellation is requested. *)
Definition asProgressiveEdit (edit : ISingleEditOperation) (speed : JsNumber)
    (token : CancellationToken) : list string :=
  let parts := subEdits (textOf edit) speed in
  match cancelAfter token with
  | Some ticks => take ticks parts
  | None => parts
  end.

(** Modelled from the spec: [performAsyncTextEdit] of [./utils] is not
    part of the sources at hand.  Sections 4.2 and 5: the edit is "applied
    sub-edit-by-sub-edit", "in left-to-right text order"; the first part
    replaces the edit's range and every later part goes after it. *)
Definition performAsyncTextEdit (doc : string) (edit : ISingleEditOperation)
    (parts : list string) : string :=
  match parts with
  | [] => doc
  | part :: rest =>
      let s := Nat.min (startOffset doc edit) (String.length doc) in
      insertParts
        (replaceOffsets doc (startOffset doc edit) (endOffset doc edit) part)
        (s + String.length part) rest
  end.

(** The content of [textModelN] after an effect of [_makeChanges]. *)
Definition contentAfter (doc : string) (e : Effect) : string :=
  match e with
  | PushUndoStop | ObsStart | ObsStop => doc
  | PushEditOperations edits _ => pushEditOperations doc edits
  | PerformAsyncTextEdit edit speed token _ =>
      performAsyncTextEdit doc edit (asProgressiveEdit edit speed token)
  end.

Definition finalContent (doc : string) (effects : list Effect) : string :=
  fold_left contentAfter effects doc.

End Document.

(** ** [PreviewStrategy] *)

Record UntitledTextModel : Type := mkUntitled {
  ut_disposed : bool;
  ut_dirty : bool
}.

(** What [apply] does to the editor's model. *)
Inductive ModelEffect : Type :=
  | PushStackElement
  | ReplaceFullRange (newText : string).

(** State around a [PreviewStrategy]: the store, the text of the editor's
    model ([None] when [getModel()] is [null]), the texts of [textModel0]
    and [textModelN], the calls made on the editor's model, and the
    untitled model of the last response, when there is one. *)
Record Preview : Type := mkPreview {
  pv_hunks : list Hunk;
  pv_editorModel : option string;
  pv_textModel0 : string;
  pv_textModelN : string;
  pv_modelEffects : list ModelEffect;
  pv_untitled : option UntitledTextModel
}.

Section PreviewStrategy.

Variable retrack : list Hunk -> list Hunk.

(** The text of [textModel0] after a pending hunk's changes were moved
    into it from [textModelN]. *)
Variable moveChanges : Hunk -> string -> string -> string.

(** [getInfo().forEach(item => item.acceptChanges())] *)
Definition acceptAllHunks (hunks : list Hunk) : list Hunk :=
  fold_left (fun hs k => acceptChanges retrack k hs) (map hunk_id hunks) hunks.

Definition acceptAllText (hunks : list Hunk) (textN text0 : string) : string :=
  fold_left (fun t0 h => if isPending h then moveChanges h textN t0 else t0)
    hunks text0.

Definition saveUntitled (u : option UntitledTextModel)
  : option UntitledTextModel :=
  match u with
  | Some m =>
      if negb (ut_disposed m) && ut_dirty m
      then Some (mkUntitled (ut_disposed m) false)
      else u
  | None => None
  end.

Definition pv_apply (s : Preview) : Preview :=
  let s1 :=
    match pv_editorModel s with
    | Some textModel =>
        if String.eqb textModel (pv_textModel0 s)
        then
          let text0 :=
            acceptAllText (pv_hunks s) (pv_textModelN s) (pv_textModel0 s) in
          mkPreview (acceptAllHunks (pv_hunks s)) (Some text0) text0
            (pv_textModelN s)
            (pv_modelEffects s ++
               [PushStackElement; ReplaceFullRange text0; PushStackElement])
            (pv_untitled s)
        else s
    | None => s
    end in
  mkPreview (pv_hunks s1) (pv_editorModel s1) (pv_textModel0 s1)
    (pv_textModelN s1) (pv_modelEffects s1) (saveUntitled (pv_untitled s1)).

(** [cancel()] is inherited from [EditModeStrategy]. *)
Definition pv_cancel (s : Preview) : Preview :=
  mkPreview (discardAll retrack (pv_hunks s)) (pv_editorModel s)
    (pv_textModel0 s) (pv_textModelN s) (pv_modelEffects s) (pv_untitled s).

End PreviewStrategy.

(** ** [apply] of the two live strategies *)

(** [if (this._editCount > 0) this._editor.pushUndoStop()] *)
Definition applyEffects (s : EditModeStrategy) : list Effect :=
  if 0 <? _editCount s then [PushUndoStop] else [].

(** [LivePreviewStrategy.apply]: the undo stop, then the untitled model of
    the last response is saved when there is one, dirty and not disposed. *)
Definition lp_apply (s : EditModeStrategy)
    (untitled : option UntitledTextModel)
  : list Effect * option UntitledTextModel :=
  (applyEffects s, saveUntitled untitled).

(** [LiveStrategy.apply] calls [_resetDiff()] first. *)
Definition ls_apply (s : EditModeStrategy) (t : Live)
    (untitled : option UntitledTextModel)
  : Live * list Effect * option UntitledTextModel :=
  (_resetDiff t, applyEffects s, saveUntitled untitled).

(** What [apply()] of a strategy does to the editor's undo stack
    ([PreviewStrategy.apply] works on the model, see [pv_apply]). *)
Definition applyEffectsOf (kind : StrategyKind) (s : EditModeStrategy)
  : list Effect :=
  match kind with
  | PreviewKind => []
  | LivePreviewKind | LiveKind => applyEffects s
  end.

(** The state that [acceptChanges] gives a hunk. *)
Definition acceptedOf (st : HunkState) : HunkState :=
  match st with
  | Pending => Accepted
  | _ => st
  end.

(** A hunk as far as its identity and its state go. *)
Definition signature (h : Hunk) : nat * HunkState := (hunk_id h, hunk_state h).

(** [acceptChanges] of the hunk [k], on a signature. *)
Definition acceptSignature (k : nat) (p : nat * HunkState) : nat * HunkState :=
  if bool_decide (fst p = k) && pendingState (snd p)
  then (fst p, Accepted)
  else p.

Definition acceptedState (st : HunkState) : bool :=
  bool_decide (st = Accepted).

Definition isAcceptHunk (a : UserAction) : bool :=
  match a with
  | AcceptHunk => true
  | DiscardHunk => false
  end.

(** ** Decorations while edits stream in

    The progress callback of [LiveStrategy.makeProgressiveChanges]. *)

(** [Number.MAX_VALUE], which is an integer. *)
Definition Number_MAX_VALUE : Z := 2 ^ 1024 - 2 ^ 971.

(** A JavaScript [Set] of numbers, as the list of its elements in insertion
    order: [add] and [delete]. *)
Definition setAdd (x : Z) (set : list Z) : list Z :=
  if bool_decide (x ∈ set) then set else set ++ [x].

Definition setDelete (x : Z) (set : list Z) : list Z :=
  List.filter (fun y => negb (y =? x)) set.

Section ProgressDecorations.

(** The lines that [LineRange.fromRange(range).forEach] visits, in order
    ([LineRange] is in [vs/editor/common/core/lineRange]). *)
Variable linesOf : Range -> list Z.

(** [LineRange.fromRange(edit.range).forEach(line => newLines.add(line))] *)
Definition addLines (set : list Z) (range : Range) : list Z :=
  fold_left (fun set line => setAdd line set) (linesOf range) set.

(** [existingRange.forEach(line => newLines.delete(line))] *)
Definition deleteLines (set : list Z) (range : Range) : list Z :=
  fold_left (fun set line => setDelete line set) (linesOf range) set.

(** [newLines] once both loops are through: [edits] are the ranges of the
    reported edits, [existing] the ranges that
    [_progressiveEditingDecorations.getRanges()] returns. *)
Definition newLines (existing edits : list Range) : list Z :=
  fold_left deleteLines existing (fold_left addLines edits []).

(** [new Range(line, 1, line, Number.MAX_VALUE)] for each new line. *)
Definition newDecorations (existing edits : list Range) : list Range :=
  map (fun line => mkRange line 1 line Number_MAX_VALUE)
    (newLines existing edits).

End ProgressDecorations.

(** ** The view zone of a hunk's original text

    [toggleDiff] and [remove] of an entry of the display map, with the
    zones that the editor holds.  [zs_viewZoneId] is [data.viewZoneId], a
    [string | undefined] that starts as the empty string;
    [zs_afterLineNumber] is [viewZoneData.afterLineNumber], which starts as
    -1; [zs_zones] are the identifiers of the zones in the editor and
    [zs_added] counts the calls of [addZone]; [zs_showsDiff] is the value
    that [toggleDiff] last gave the context key
    [_ctxCurrentChangeShowsDiff]. *)
Record ZoneState : Type := mkZoneState {
  zs_viewZoneId : option string;
  zs_afterLineNumber : Z;
  zs_zones : list string;
  zs_added : nat;
  zs_showsDiff : bool
}.

(** Whether a [string | undefined] is truthy. *)
Definition truthy (v : option string) : bool :=
  match v with
  | Some s => negb (String.eqb s EmptyString)
  | None => false
  end.

Definition removeZone (id : string) (zones : list string) : list string :=
  List.filter (fun z => negb (String.eqb z id)) zones.

Section ViewZones.

(** The identifier that the [n]-th call of [addZone] returns. *)
Variable zoneId : nat -> string.

(** [typeof data?.viewZoneId === 'number'] is false of a string and of
    [undefined]. *)
Definition toggleDiff (hunkRange : Range) (z : ZoneState) : ZoneState :=
  if negb (truthy (zs_viewZoneId z))
  then mkZoneState (Some (zoneId (zs_added z)))
         (startLineNumber hunkRange - 1)
         (zs_zones z ++ [zoneId (zs_added z)]) (S (zs_added z)) false
  else mkZoneState None (zs_afterLineNumber z)
         (removeZone (default EmptyString (zs_viewZoneId z)) (zs_zones z))
         (zs_added z) false.

(** The view zone part of [remove]. *)
Definition removeViewZone (z : ZoneState) : ZoneState :=
  mkZoneState None (zs_afterLineNumber z)
    (if truthy (zs_viewZoneId z)
     then removeZone (default EmptyString (zs_viewZoneId z)) (zs_zones z)
     else zs_zones z)
    (zs_added z) (zs_showsDiff z).

Definition toggles (hunkRange : Range) (n : nat) (z : ZoneState) : ZoneState :=
  Nat.iter n (toggleDiff hunkRange) z.

End ViewZones.

(** The entry as [renderHunks] creates it, in an editor that holds [zones]
    after [added] calls of [addZone]. *)
Definition newZoneState (zones : list string) (added : nat) : ZoneState :=
  mkZoneState (Some EmptyString) (-1) zones added false.

(** ** Concrete collaborators, for running the model *)

Definition plainDelta (p : Position) (d : Z) : Position :=
  mkPosition (lineNumber p + d) (column p).

Definition moveZoneTo (zoneLine : Z) (p : Position) : Z := lineNumber p.

Definition keepRanges (hunks : list Hunk) : list Hunk := hunks.

(** Modelled from the spec: [countWords] is not part of the sources at
    hand; here a word is a maximal run of characters other than the
    space. *)
Fixpoint countWordsFrom (inWord : bool) (s : string) : Z :=
  match s with
  | EmptyString => 0
  | String c s' =>
      if Ascii.eqb c " "%char
      then countWordsFrom false s'
      else (if inWord then 0 else 1) + countWordsFrom true s'
  end.

Definition countWordsModel (s : string) : Z := countWordsFrom false s.

(** One part per character. *)
Fixpoint charParts (s : string) : list string :=
  match s with
  | EmptyString => []
  | String c s' => String c EmptyString :: charParts s'
  end.

Definition charSubEdits (text : string) (speed : JsNumber) : list string :=
  match charParts text with
  | [] => [EmptyString]
  | parts => parts
  end.

(** Offsets in a one-line document: the column, counted from 1. *)
Definition columnOffset (doc : string) (p : Position) : nat :=
  Z.to_nat (column p - 1).

(** Zone identifiers [z], [zi], [zii], ... *)
Definition unaryZoneId (n : nat) : string :=
  String "z" (Nat.iter n (String "i") EmptyString).

(** A store with a hunk around line 13 inside a larger one, and a hunk
    further down. *)
Definition nestedHunks : list Hunk :=
  [mkHunk 1 (mkRange 10 1 20 1) Pending;
   mkHunk 2 (mkRange 12 1 14 1) Pending;
   mkHunk 3 (mkRange 40 1 42 1) Accepted].

(** A new strategy over a store, with the zone at [zoneLine]. *)
Definition lp_new (hunks : list Hunk) (zoneLine : Z) : LivePreview :=
  mkLivePreview hunks zoneLine 0 BaseActions [].

Definition ls_new (hunks : list Hunk) (zoneLine : Z) : Live :=
  mkLive hunks zoneLine ∅ BaseActions [].

(** [protected _editCount: number = 0] *)
Definition newStrategy : EditModeStrategy := mkStrategy 0.

Definition lines (s e : Z) : Range := mkRange s 1 e 1.

(** The specification's example store: hunks on lines 10-12 and 40-42. *)
Definition exampleHunks : list Hunk :=
  [mkHunk 1 (lines 10 12) Pending; mkHunk 2 (lines 40 42) Pending].

(** A preview whose editor text was typed over after the snapshot. *)
Definition divergedPreview : Preview :=
  mkPreview exampleHunks (Some "typed over"%string) "original"%string
    "proposed"%string [] None.


(** * Properties *)

(** ** The distance *)

Example distance_above : distance 3 (lines 10 12) = 7.
Proof. reflexivity. Qed.

Example distance_below : distance 25 (lines 10 12) = 13.
Proof. reflexivity. Qed.

Example distance_on_end : distance 12 (lines 10 12) = 0.
Proof. reflexivity. Qed.

Lemma distance_agrees_outside (zone : Z) (r : Range) :
  startLineNumber r <= endLineNumber r ->
  zone <= startLineNumber r \/ endLineNumber r <= zone ->
  distance zone r = distance_spec zone r.
Proof.
  unfold distance, distance_spec. intros Hr Hz.
  destruct (Z.leb_spec zone (startLineNumber r)); [reflexivity |].
  destruct (Z.leb_spec (endLineNumber r) zone); [reflexivity | lia].
Qed.

(** C1, as stated, fails: with the zone on line 15, strictly inside a hunk
    on lines 10-20, the computed distance is -5 where the claim says 0. *)
Lemma distance_inside_is_negative :
  startLineNumber (lines 10 20) < 15 /\ 15 < endLineNumber (lines 10 20) /\
  distance 15 (lines 10 20) = -5 /\ distance_spec 15 (lines 10 20) = 0.
Proof. repeat split. Qed.

(** C1, amended: for a hunk range whose start is not after its end, the
    distance is [start - zone] when the zone line is at or above the start,
    and [zone - end] otherwise: that is [zone - end] at or below the end,
    and again [zone - end], a negative number, strictly inside the hunk. *)
Theorem distance_cases (zone : Z) (r : Range) :
  startLineNumber r <= endLineNumber r ->
  (zone <= startLineNumber r -> distance zone r = startLineNumber r - zone) /\
  (endLineNumber r <= zone -> distance zone r = zone - endLineNumber r) /\
  (startLineNumber r < zone < endLineNumber r ->
   distance zone r = zone - endLineNumber r /\ distance zone r < 0).
Proof.
  intros Hr. unfold distance.
  destruct (Z.leb_spec zone (startLineNumber r)) as [Hle | Hlt].
  - repeat split; intros; lia.
  - repeat split; intros; lia.
Qed.

(** [distance_cases] above, below and inside a hunk on lines 10-20. *)
Lemma distance_cases_witness :
  distance 3 (lines 10 20) = 7 /\
  distance 25 (lines 10 20) = 5 /\
  distance 15 (lines 10 20) < 0.
Proof.
  assert (Hr : startLineNumber (lines 10 20) <= endLineNumber (lines 10 20))
    by (vm_compute; discriminate).
  destruct (distance_cases 3 (lines 10 20) Hr) as (Ha & _ & _).
  destruct (distance_cases 25 (lines 10 20) Hr) as (_ & Hb & _).
  destruct (distance_cases 15 (lines 10 20) Hr) as (_ & _ & Hc).
  split; [| split].
  - rewrite Ha; [reflexivity | vm_compute; discriminate].
  - rewrite Hb; [reflexivity | vm_compute; discriminate].
  - apply Hc. split; reflexivity.
Defined.

(** ** The nearest hunk *)

Section StrategyFacts.

Variable delta : Position -> Z -> Position.
Variable updatePositionAndHeight : Z -> Position -> Z.
Variable retrack : list Hunk -> list Hunk.

(** [Retracks]: re-tracking the ranges keeps the hunks' identities and
    states, in order. *)
Hypothesis retrack_ids : forall hs, map hunk_id (retrack hs) = map hunk_id hs.
Hypothesis retrack_states :
  forall hs, map hunk_state (retrack hs) = map hunk_state hs.

Lemma isNearestIn_singleton (zone : Z) (h : Hunk) : isNearestIn zone [h] h.
Proof. exists [], []. repeat split; constructor. Qed.

Lemma isNearestIn_keep (zone : Z) (hs : list Hunk) (h x : Hunk) :
  isNearestIn zone hs h ->
  distance zone (hunk_rangeN h) <= distance zone (hunk_rangeN x) ->
  isNearestIn zone (hs ++ [x]) h.
Proof.
  intros (before & after & -> & Hb & Ha) Hx.
  exists before, (after ++ [x]). split.
  - rewrite <- app_assoc. reflexivity.
  - split; [assumption |]. apply Forall_app. split; [assumption |].
    constructor; [assumption | constructor].
Qed.

Lemma isNearestIn_replace (zone : Z) (hs : list Hunk) (h x : Hunk) :
  isNearestIn zone hs h ->
  distance zone (hunk_rangeN x) < distance zone (hunk_rangeN h) ->
  isNearestIn zone (hs ++ [x]) x.
Proof.
  intros (before & after & -> & Hb & Ha) Hx.
  exists (before ++ h :: after), []. split; [reflexivity |].
  split; [| constructor].
  apply Forall_app. split.
  - eapply Forall_impl; [exact Hb |]. simpl. intros; lia.
  - constructor; [assumption |].
    eapply Forall_impl; [exact Ha |]. simpl. intros; lia.
Qed.

Lemma isNearestIn_elem (zone : Z) (hs : list Hunk) (h : Hunk) :
  isNearestIn zone hs h -> In h hs.
Proof.
  intros (before & after & -> & _). apply in_or_app. right. left. reflexivity.
Qed.

Lemma nearest_fold (zone : Z) (hs pre : list Hunk) (n : Data) (h : Hunk) :
  builtFrom delta zone n h -> isNearestIn zone pre h ->
  exists n' h',
    fold_left (nearestStep delta zone) hs (Some n) = Some n' /\
    builtFrom delta zone n' h' /\ isNearestIn zone (pre ++ hs) h'.
Proof.
  revert pre n h. induction hs as [| x hs IH]; intros pre n h Hn Hpre.
  - exists n, h. rewrite app_nil_r. auto.
  - simpl. destruct Hn as (Hid & Hd & Hp).
    replace (pre ++ x :: hs) with ((pre ++ [x]) ++ hs)
      by (rewrite <- app_assoc; reflexivity).
    destruct (Z.gtb_spec (data_distance n) (distance zone (hunk_rangeN x)))
      as [Hgt | Hle].
    + apply IH with (h := x).
      * repeat split.
      * apply isNearestIn_replace with (h := h); [assumption | lia].
    + apply IH with (h := h).
      * repeat split; assumption.
      * apply isNearestIn_keep; [assumption | lia].
Qed.

Lemma nearestOf_spec (zone : Z) (hs : list Hunk) :
  match nearestOf delta zone hs with
  | None => hs = []
  | Some n => exists h, builtFrom delta zone n h /\ isNearestIn zone hs h
  end.
Proof.
  unfold nearestOf. destruct hs as [| x hs]; [reflexivity |]. simpl.
  destruct (nearest_fold zone hs [x]
              (mkData (delta (getStartPosition (hunk_rangeN x)) (-1))
                 (distance zone (hunk_rangeN x)) (hunk_id x)) x)
    as (n' & h' & -> & Hn' & Hh').
  - repeat split.
  - apply isNearestIn_singleton.
  - exists h'. auto.
Qed.

Lemma pendingHunks_elem (hs : list Hunk) (h : Hunk) :
  In h (pendingHunks hs) <-> In h hs /\ hunk_state h = Pending.
Proof.
  unfold pendingHunks. rewrite filter_In. unfold isPending.
  rewrite bool_decide_eq_true. reflexivity.
Qed.

(** *** The loop of [renderHunks] *)

Lemma pendingHunks_snoc (pre : list Hunk) (x : Hunk) :
  pendingHunks (pre ++ [x])
  = pendingHunks pre ++ (if isPending x then [x] else []).
Proof.
  unfold pendingHunks. rewrite List.filter_app. simpl.
  destruct (isPending x); reflexivity.
Qed.

Lemma renderStep_other (zone : Z) (m : gmap nat HunkDisplayData)
    (w : option nat) (x : Hunk) (k : nat) :
  k <> hunk_id x -> fst (renderStep delta zone (m, w) x) !! k = m !! k.
Proof.
  intros Hk. unfold renderStep. simpl.
  destruct (m !! hunk_id x) as [data |]; [destruct (negb (isPending x)) |];
    simpl; rewrite lookup_insert_ne; congruence.
Qed.

Lemma renderStep_here (zone : Z) (m : gmap nat HunkDisplayData)
    (w : option nat) (x : Hunk) :
  is_Some (fst (renderStep delta zone (m, w) x) !! hunk_id x).
Proof.
  unfold renderStep. simpl.
  destruct (m !! hunk_id x) as [data |]; [destruct (negb (isPending x)) |];
    simpl; rewrite lookup_insert_eq; eauto.
Qed.

Lemma renderStep_fresh (zone : Z) (m : gmap nat HunkDisplayData)
    (w : option nat) (x : Hunk) :
  isPending x = true ->
  displayFresh delta zone (fst (renderStep delta zone (m, w) x)) x.
Proof.
  intros Hp. unfold renderStep, displayFresh. simpl. rewrite Hp. simpl.
  destruct (m !! hunk_id x) as [data |]; simpl; rewrite lookup_insert_eq;
    eexists; repeat split.
Qed.

Lemma renderStep_inv (zone : Z) (pre : list Hunk)
    (acc : gmap nat HunkDisplayData * option nat) (x : Hunk) :
  ~ In (hunk_id x) (map hunk_id pre) ->
  renderInv delta zone pre acc ->
  renderInv delta zone (pre ++ [x]) (renderStep delta zone acc x).
Proof.
  intros Hx (Hall & Hfresh & Hw). destruct acc as [m w].
  cbn [fst snd] in Hall, Hfresh, Hw.
  assert (Hne : forall h, In h pre -> hunk_id h <> hunk_id x).
  { intros h Hh Heq. apply Hx. rewrite <- Heq. apply in_map. exact Hh. }
  assert (Hkeep : forall h, In h (pendingHunks pre) ->
            displayFresh delta zone (fst (renderStep delta zone (m, w) x)) h).
  { intros h Hh. destruct (Hfresh h Hh) as (data & Hm & Hd & Hp).
    exists data. rewrite renderStep_other; [auto |].
    apply Hne. apply pendingHunks_elem in Hh. tauto. }
  split; [| split].
  - intros h Hh. apply in_app_or in Hh. destruct Hh as [Hh | [<- | []]].
    + rewrite renderStep_other; auto.
    + apply renderStep_here.
  - intros h Hh. rewrite pendingHunks_snoc in Hh. apply in_app_or in Hh.
    destruct Hh as [Hh | Hh]; [auto |].
    destruct (isPending x) eqn:Hp; [| destruct Hh].
    destruct Hh as [<- | []]. apply renderStep_fresh. exact Hp.
  - rewrite pendingHunks_snoc.
    pose proof (renderStep_fresh zone m w x) as Hxf.
    revert Hkeep Hxf. unfold renderStep. simpl.
    set (m' := match m !! hunk_id x with
               | Some data => _
               | None => _
               end).
    intros Hkeep Hxf.
    destruct (isPending x) eqn:Hp; simpl.
    + destruct w as [k |].
      * destruct Hw as (h & -> & Hn).
        destruct (Hkeep h (isNearestIn_elem _ _ _ Hn)) as (dw & Hmw & Hdw & _).
        destruct (Hxf eq_refl) as (dx & Hmx & Hdx & _).
        unfold widgetDistance. rewrite Hmx, Hmw. simpl. rewrite Hdx, Hdw.
        destruct (Z.ltb_spec (distance zone (hunk_rangeN x))
                    (distance zone (hunk_rangeN h))).
        -- exists x. split; [reflexivity |].
           apply isNearestIn_replace with (h := h); assumption.
        -- exists h. split; [reflexivity |].
           apply isNearestIn_keep; assumption.
      * exists x. split; [reflexivity |]. rewrite Hw. simpl.
        apply isNearestIn_singleton.
    + rewrite app_nil_r. exact Hw.
Qed.

Lemma renderLoop_inv (zone : Z) (hs pre : list Hunk)
    (acc : gmap nat HunkDisplayData * option nat) :
  NoDup (map hunk_id (pre ++ hs)) ->
  renderInv delta zone pre acc ->
  renderInv delta zone (pre ++ hs) (fold_left (renderStep delta zone) hs acc).
Proof.
  revert pre acc. induction hs as [| x hs IH]; intros pre acc Hnd Hinv.
  - rewrite app_nil_r. exact Hinv.
  - simpl.
    replace (pre ++ x :: hs) with ((pre ++ [x]) ++ hs) in *
      by (rewrite <- app_assoc; reflexivity).
    apply IH; [exact Hnd |].
    apply renderStep_inv; [| exact Hinv].
    rewrite !map_app in Hnd. apply NoDup_app in Hnd.
    destruct Hnd as (Hnd & _ & _). apply NoDup_app in Hnd.
    destruct Hnd as (_ & Hdis & _). intros Hin.
    eapply Hdis; [exact (proj2 (list_elem_of_In _ _) Hin) | simpl; left].
Qed.

Lemma renderLoop_spec (zone : Z) (m : gmap nat HunkDisplayData)
    (hs : list Hunk) :
  NoDup (map hunk_id hs) ->
  renderInv delta zone hs (renderLoop delta zone m hs).
Proof.
  intros Hnd. unfold renderLoop.
  apply (renderLoop_inv zone hs [] (m, None)); [exact Hnd |].
  repeat split; intros h [].
Qed.


Lemma isNearestIn_unique (zone : Z) (hs : list Hunk) (h h' : Hunk) :
  isNearestIn zone hs h -> isNearestIn zone hs h' -> h = h'.
Proof.
  intros (before & after & -> & Hb & Ha) (before' & after' & Heq & Hb' & Ha').
  revert before' Heq Hb Hb'.
  induction before as [| b bs IH]; intros [| b' bs'] Heq Hb Hb'; simpl in Heq.
  - congruence.
  - injection Heq as -> ->.
    apply Forall_cons in Hb'. destruct Hb' as (Hlt & _).
    apply Forall_app in Ha. destruct Ha as (_ & Ha).
    apply Forall_cons in Ha. destruct Ha as (Hle & _). lia.
  - injection Heq as <- <-.
    apply Forall_cons in Hb. destruct Hb as (Hlt & _).
    apply Forall_app in Ha'. destruct Ha' as (_ & Ha').
    apply Forall_cons in Ha'. destruct Ha' as (Hle & _). lia.
  - injection Heq as -> Heq.
    apply Forall_cons in Hb. apply Forall_cons in Hb'.
    apply (IH bs'); tauto.
Qed.

Lemma updateDiffZones_nearest (s : LivePreview) :
  match pendingHunks (lp_hunks s) with
  | [] =>
      _updateDiffZones delta updatePositionAndHeight s
      = (lp_fire (terminalEvent (lp_hunks s)) s, None)
  | _ :: _ =>
      exists h,
        isNearestIn (lp_zoneLine s) (pendingHunks (lp_hunks s)) h /\
        _updateDiffZones delta updatePositionAndHeight s
        = (mkLivePreview (lp_hunks s)
             (updatePositionAndHeight (lp_zoneLine s)
                (delta (getStartPosition (hunk_rangeN h)) (-1)))
             (Nat.max (lp_diffZonePool s)
                (length (pendingHunks (lp_hunks s))))
             (NearestActions (hunk_id h)) (lp_events s),
           Some (delta (getStartPosition (hunk_rangeN h)) (-1)))
  end.
Proof.
  unfold _updateDiffZones.
  pose proof (nearestOf_spec (lp_zoneLine s) (pendingHunks (lp_hunks s))) as Hn.
  destruct (pendingHunks (lp_hunks s)) as [| x xs] eqn:Hp; [reflexivity |].
  simpl length. simpl Nat.eqb.
  destruct (nearestOf delta (lp_zoneLine s) (x :: xs)) as [n |];
    [| discriminate].
  destruct Hn as (h & (Hid & _ & Hpos) & Hnear).
  exists h. rewrite Hid, Hpos. auto.
Qed.

Lemma dropStale_lookup (hs : list Hunk) (m : gmap nat HunkDisplayData)
    (h : Hunk) :
  In h hs -> dropStale hs m !! hunk_id h = m !! hunk_id h.
Proof.
  intros Hh. unfold dropStale.
  destruct (m !! hunk_id h) as [data |] eqn:Hm.
  - apply map_lookup_filter_Some. split; [exact Hm |]. simpl.
    apply list_elem_of_In. apply in_map. exact Hh.
  - apply map_lookup_filter_None. left. exact Hm.
Qed.

Lemma renderHunks_nearest (t : Live) :
  NoDup (map hunk_id (ls_hunks t)) ->
  match pendingHunks (ls_hunks t) with
  | [] =>
      snd (renderHunks delta updatePositionAndHeight t) = None /\
      ls_hunks (fst (renderHunks delta updatePositionAndHeight t)) = ls_hunks t /\
      ls_events (fst (renderHunks delta updatePositionAndHeight t))
      = ls_events t ++
        (if bool_decide (ls_hunks t = []) then []
         else [terminalEvent (ls_hunks t)])
  | _ :: _ =>
      exists h,
        isNearestIn (ls_zoneLine t) (pendingHunks (ls_hunks t)) h /\
        ls_hunks (fst (renderHunks delta updatePositionAndHeight t)) = ls_hunks t /\
        ls_actions (fst (renderHunks delta updatePositionAndHeight t))
        = NearestActions (hunk_id h) /\
        ls_events (fst (renderHunks delta updatePositionAndHeight t))
        = ls_events t /\
        dd_position <$> snd (renderHunks delta updatePositionAndHeight t)
        = Some (delta (getStartPosition (hunk_rangeN h)) (-1)) /\
        dd_distance <$> snd (renderHunks delta updatePositionAndHeight t)
        = Some (distance (ls_zoneLine t) (hunk_rangeN h))
  end.
Proof.
  intros Hnd. unfold renderHunks.
  pose proof (renderLoop_spec (ls_zoneLine t) (ls_hunkDisplayData t)
                (ls_hunks t) Hnd) as (Hall & Hfresh & Hw).
  destruct (renderLoop delta (ls_zoneLine t) (ls_hunkDisplayData t) (ls_hunks t))
    as [m w].
  cbn [fst snd] in Hall, Hfresh, Hw.
  destruct w as [k |].
  - destruct Hw as (h & -> & Hnear).
    destruct (pendingHunks (ls_hunks t)) as [| x xs] eqn:Hp.
    { apply isNearestIn_elem in Hnear. destruct Hnear. }
    exists h. split; [exact Hnear |].
    destruct (Hfresh h (isNearestIn_elem _ _ _ Hnear)) as (data & Hm & Hd & Hpos).
    simpl. rewrite Hm. simpl. rewrite Hd, Hpos. auto.
  - rewrite Hw. simpl.
    destruct (ls_hunks t) as [| x xs] eqn:Hhs.
    + assert (Hsz : size (dropStale [] m) = 0%nat).
      { apply map_size_empty_iff. apply map_eq. intros i.
        rewrite lookup_empty. apply map_lookup_filter_None. right.
        intros data _ Hin. simpl in Hin. inversion Hin. }
      rewrite Hsz. simpl. rewrite app_nil_r. auto.
    + assert (Hsz : (0 <? size (dropStale (x :: xs) m))%nat = true).
      { apply Nat.ltb_lt.
        destruct (Hall x (or_introl eq_refl)) as [data Hm].
        assert (Hne : dropStale (x :: xs) m <> ∅).
        { intros He.
          pose proof (dropStale_lookup (x :: xs) m x (or_introl eq_refl)) as Hl.
          rewrite He, lookup_empty, Hm in Hl. discriminate. }
        apply map_size_non_empty_iff in Hne. lia. }
      rewrite Hsz. simpl. auto.
Qed.


Lemma isNearestIn_exists (zone : Z) (hs : list Hunk) :
  hs <> [] -> exists h, isNearestIn zone hs h.
Proof.
  intros Hne. pose proof (nearestOf_spec zone hs) as Hn.
  destruct (nearestOf delta zone hs) as [n |]; [| contradiction].
  destruct Hn as (h & _ & Hh). eauto.
Qed.

(** C2: in both live strategies the hunk bound to [acceptHunk] and
    [discardHunk] after a rendering is the nearest pending hunk: no pending
    hunk has a smaller distance, and the pending hunks before it in the
    store are strictly farther, so that the first of several equally near
    hunks wins; such a hunk exists whenever a hunk is pending and is
    unique.  For the hunks on lines 10-12 and 40-42 with the zone on line
    25 the distances are 13 and 15 and the first hunk is the nearest. *)
Theorem nearest_hunk_is_selected (s : LivePreview) (t : Live) :
  NoDup (map hunk_id (ls_hunks t)) ->
  (forall h,
     isNearestIn (lp_zoneLine s) (pendingHunks (lp_hunks s)) h ->
     lp_actions (fst (_updateDiffZones delta updatePositionAndHeight s))
     = NearestActions (hunk_id h) /\
     snd (_updateDiffZones delta updatePositionAndHeight s)
     = Some (delta (getStartPosition (hunk_rangeN h)) (-1))) /\
  (forall h,
     isNearestIn (ls_zoneLine t) (pendingHunks (ls_hunks t)) h ->
     ls_actions (fst (renderHunks delta updatePositionAndHeight t))
     = NearestActions (hunk_id h) /\
     dd_distance <$> snd (renderHunks delta updatePositionAndHeight t)
     = Some (distance (ls_zoneLine t) (hunk_rangeN h)) /\
     snd (ls_renderChanges delta updatePositionAndHeight t)
     = Some (delta (getStartPosition (hunk_rangeN h)) (-1))) /\
  (forall zone hs,
     pendingHunks hs <> [] ->
     exists h, isNearestIn zone (pendingHunks hs) h /\
               In h hs /\ hunk_state h = Pending /\
               forall h', isNearestIn zone (pendingHunks hs) h' -> h' = h) /\
  (isNearestIn 25 (pendingHunks exampleHunks) (mkHunk 1 (lines 10 12) Pending) /\
   distance 25 (lines 10 12) = 13 /\ distance 25 (lines 40 42) = 15).
Proof.
  intros Hnd. split; [| split; [| split]].
  - intros h Hh. pose proof (updateDiffZones_nearest s) as Hs.
    destruct (pendingHunks (lp_hunks s)) as [| x xs] eqn:Hp.
    { apply isNearestIn_elem in Hh. destruct Hh. }
    destruct Hs as (h0 & Hh0 & ->).
    rewrite (isNearestIn_unique _ _ _ _ Hh Hh0). auto.
  - intros h Hh. pose proof (renderHunks_nearest t Hnd) as Ht.
    unfold ls_renderChanges.
    destruct (pendingHunks (ls_hunks t)) as [| x xs] eqn:Hp.
    { apply isNearestIn_elem in Hh. destruct Hh. }
    destruct Ht as (h0 & Hh0 & _ & Hact & _ & Hpos & Hd).
    rewrite (isNearestIn_unique _ _ _ _ Hh Hh0).
    destruct (renderHunks delta updatePositionAndHeight t) as [t' wd].
    auto.
  - intros zone hs Hne.
    destruct (isNearestIn_exists zone (pendingHunks hs) Hne) as (h & Hh).
    exists h. pose proof (isNearestIn_elem _ _ _ Hh) as Hin.
    apply pendingHunks_elem in Hin. destruct Hin as (Hin & Hst).
    repeat split; try assumption.
    intros h' Hh'. exact (isNearestIn_unique _ _ _ _ Hh' Hh).
  - split; [| split; reflexivity].
    exists [], [mkHunk 2 (lines 40 42) Pending]. split; [reflexivity |].
    split; [constructor |].
    constructor; [vm_compute; discriminate | constructor].
Qed.


(** ** Resolving the pending hunks one by one *)

Lemma pendingHunks_length (hs : list Hunk) :
  length (pendingHunks hs)
  = length (List.filter pendingState (map hunk_state hs)).
Proof.
  induction hs as [| x xs IH]; [reflexivity |]. simpl.
  unfold isPending, pendingState in *.
  destruct (bool_decide (hunk_state x = Pending)); simpl; congruence.
Qed.

Lemma retrack_pending (hs : list Hunk) :
  length (pendingHunks (retrack hs)) = length (pendingHunks hs).
Proof. rewrite !pendingHunks_length, retrack_states. reflexivity. Qed.

Lemma resolveHunk_id (a : UserAction) (k : nat) (hs : list Hunk) :
  map hunk_id (map (resolveHunk a k) hs) = map hunk_id hs.
Proof.
  rewrite map_map. apply map_ext. intros h. unfold resolveHunk.
  destruct (bool_decide (hunk_id h = k) && isPending h); reflexivity.
Qed.

Lemma resolveHunk_absent (a : UserAction) (k : nat) (hs : list Hunk) :
  ~ In k (map hunk_id hs) -> map (resolveHunk a k) hs = hs.
Proof.
  induction hs as [| x xs IH]; intros Hk; [reflexivity |]. simpl in *.
  rewrite IH by tauto. f_equal. unfold resolveHunk.
  rewrite bool_decide_eq_false_2 by tauto. reflexivity.
Qed.

Lemma resolvedState_not_pending (a : UserAction) :
  pendingState (resolvedState a) = false.
Proof. destruct a; reflexivity. Qed.

Lemma resolveHunk_pending (a : UserAction) (hs : list Hunk) (h : Hunk) :
  NoDup (map hunk_id hs) -> In h hs -> hunk_state h = Pending ->
  S (length (pendingHunks (map (resolveHunk a (hunk_id h)) hs)))
  = length (pendingHunks hs).
Proof.
  induction hs as [| x xs IH]; intros Hnd Hin Hst; [destruct Hin |].
  simpl in Hnd. apply NoDup_cons in Hnd. destruct Hnd as (Hx & Hnd).
  rewrite list_elem_of_In in Hx. destruct Hin as [-> | Hin].
  - simpl. rewrite resolveHunk_absent by exact Hx.
    assert (Hp : isPending h = true) by (apply bool_decide_eq_true_2; exact Hst).
    unfold resolveHunk. rewrite Hp, bool_decide_eq_true_2 by reflexivity.
    simpl. destruct a; reflexivity.
  - simpl. unfold resolveHunk at 1.
    rewrite bool_decide_eq_false_2.
    + simpl. destruct (isPending x); simpl; rewrite <- (IH Hnd Hin Hst);
        reflexivity.
    + intros Heq. apply Hx. rewrite Heq. apply in_map. exact Hin.
Qed.

Lemma resolveChanges_ids (a : UserAction) (k : nat) (hs : list Hunk) :
  map hunk_id (resolveChanges retrack a k hs) = map hunk_id hs.
Proof.
  destruct a; unfold resolveChanges, acceptChanges, discardChanges;
    rewrite retrack_ids; apply resolveHunk_id.
Qed.

Lemma resolveChanges_pending (a : UserAction) (hs : list Hunk) (h : Hunk) :
  NoDup (map hunk_id hs) -> In h hs -> hunk_state h = Pending ->
  S (length (pendingHunks (resolveChanges retrack a (hunk_id h) hs)))
  = length (pendingHunks hs).
Proof.
  intros Hnd Hin Hst.
  rewrite <- (resolveHunk_pending a hs h Hnd Hin Hst).
  destruct a; unfold resolveChanges, acceptChanges, discardChanges;
    rewrite retrack_pending; reflexivity.
Qed.

Lemma terminalEvent_accept (hs : list Hunk) :
  terminalEvent hs = DidAccept
  <-> exists h, In h hs /\ hunk_state h = Accepted.
Proof.
  unfold terminalEvent. destruct (existsb isAccepted hs) eqn:He.
  - split; [intros _ | reflexivity].
    apply existsb_exists in He. destruct He as (h & Hin & Ha).
    exists h. split; [exact Hin |]. exact (bool_decide_eq_true_1 _ Ha).
  - split; [discriminate |]. intros (h & Hin & Ha).
    assert (Ht : existsb isAccepted hs = true).
    { apply existsb_exists. exists h. split; [exact Hin |].
      apply bool_decide_eq_true_2. exact Ha. }
    congruence.
Qed.

Lemma terminalEvent_discard (hs : list Hunk) :
  terminalEvent hs = DidDiscard
  <-> forall h, In h hs -> hunk_state h <> Accepted.
Proof.
  split.
  - intros Ht h Hin Ha.
    assert (Hacc : terminalEvent hs = DidAccept)
      by (apply terminalEvent_accept; eauto).
    congruence.
  - intros Hall. destruct (terminalEvent hs) eqn:Ht; [| reflexivity].
    apply terminalEvent_accept in Ht. destruct Ht as (h & Hin & Ha).
    destruct (Hall h Hin Ha).
Qed.

(** *** [LivePreviewStrategy] *)

Lemma updateDiffZones_ready (s : LivePreview) (n : nat) :
  NoDup (map hunk_id (lp_hunks s)) ->
  length (pendingHunks (lp_hunks s)) = n ->
  lpReady n (fst (_updateDiffZones delta updatePositionAndHeight s)) /\
  lp_hunks (fst (_updateDiffZones delta updatePositionAndHeight s))
  = lp_hunks s /\
  lp_events (fst (_updateDiffZones delta updatePositionAndHeight s))
  = lp_events s ++
    match n with
    | O => [terminalEvent (lp_hunks s)]
    | S _ => []
    end.
Proof.
  intros Hnd Hn. pose proof (updateDiffZones_nearest s) as Hs.
  destruct (pendingHunks (lp_hunks s)) as [| x xs] eqn:Hp.
  - rewrite Hs. simpl in Hn. subst n. unfold lpReady. simpl.
    rewrite Hp. split; [| split; reflexivity].
    split; [exact Hnd |]. split; [reflexivity |]. intros Hc. contradiction.
  - destruct Hs as (h & Hnear & ->). simpl in Hn. subst n.
    unfold lpReady. simpl. rewrite app_nil_r, Hp.
    split; [| split; reflexivity].
    split; [exact Hnd |]. split; [reflexivity |].
    intros _. exists h. apply isNearestIn_elem in Hnear.
    rewrite <- Hp in Hnear. apply pendingHunks_elem in Hnear.
    destruct Hnear. auto.
Qed.

Lemma lp_act_ready (a : UserAction) (s : LivePreview) (n : nat) :
  lpReady (S n) s ->
  lpReady n (lp_act delta updatePositionAndHeight retrack a s) /\
  lp_events (lp_act delta updatePositionAndHeight retrack a s)
  = lp_events s ++
    match n with
    | O => [terminalEvent
              (lp_hunks (lp_act delta updatePositionAndHeight retrack a s))]
    | S _ => []
    end.
Proof.
  intros (Hnd & Hn & Hact). destruct (Hact (Nat.neq_succ_0 n))
    as (h & Hin & Hst & Hb).
  unfold lp_act. rewrite Hb.
  set (s1 := mkLivePreview _ _ _ _ _).
  assert (Hnd1 : NoDup (map hunk_id (lp_hunks s1))).
  { unfold s1. simpl. rewrite resolveChanges_ids. exact Hnd. }
  assert (Hn1 : length (pendingHunks (lp_hunks s1)) = n).
  { unfold s1. simpl.
    pose proof (resolveChanges_pending a _ h Hnd Hin Hst) as Hc. lia. }
  destruct (updateDiffZones_ready s1 n Hnd1 Hn1) as (Hr & Hh & He).
  split; [exact Hr |]. rewrite He, Hh. reflexivity.
Qed.

Lemma lp_run_quiet (acts : list UserAction) (s : LivePreview) (n : nat) :
  lpReady (length acts + n) s ->
  lpReady n (lp_run delta updatePositionAndHeight retrack acts s) /\
  (n <> O ->
   lp_events (lp_run delta updatePositionAndHeight retrack acts s)
   = lp_events s).
Proof.
  revert s. induction acts as [| a acts IH]; intros s Hs; simpl in *.
  - auto.
  - destruct (lp_act_ready a s (length acts + n)%nat Hs) as (Hr & He).
    destruct (IH _ Hr) as (Hr' & He'). split; [exact Hr' |].
    intros Hn. rewrite (He' Hn), He.
    destruct (length acts + n)%nat eqn:Hl; [lia |]. apply app_nil_r.
Qed.

Lemma lp_run_app (acts1 acts2 : list UserAction) (s : LivePreview) :
  lp_run delta updatePositionAndHeight retrack (acts1 ++ acts2) s
  = lp_run delta updatePositionAndHeight retrack acts2
      (lp_run delta updatePositionAndHeight retrack acts1 s).
Proof. unfold lp_run. apply fold_left_app. Qed.

Lemma lp_run_exhausts (acts : list UserAction) (s : LivePreview) :
  acts <> [] ->
  lpReady (length acts) s ->
  pendingHunks (lp_hunks (lp_run delta updatePositionAndHeight retrack acts s))
  = [] /\
  lp_events (lp_run delta updatePositionAndHeight retrack acts s)
  = lp_events s ++
    [terminalEvent
       (lp_hunks (lp_run delta updatePositionAndHeight retrack acts s))] /\
  (forall acts1 acts2,
     acts = acts1 ++ acts2 -> acts2 <> [] ->
     lp_events (lp_run delta updatePositionAndHeight retrack acts1 s)
     = lp_events s).
Proof.
  intros Hne Hs. split; [| split].
  - destruct (lp_run_quiet acts s 0) as ((_ & Hn & _) & _).
    + rewrite Nat.add_0_r. exact Hs.
    + apply length_zero_iff_nil. exact Hn.
  - destruct (exists_last Hne) as (front & a & ->).
    rewrite length_app in Hs. simpl in Hs.
    destruct (lp_run_quiet front s 1 Hs) as (Hr & He).
    rewrite lp_run_app. simpl.
    destruct (lp_act_ready a _ 0%nat Hr) as (_ & Ha).
    rewrite Ha, He by discriminate. reflexivity.
  - intros acts1 acts2 -> Hne2. rewrite length_app in Hs.
    destruct (lp_run_quiet acts1 s (length acts2) Hs) as (_ & He).
    apply He. destruct acts2; [contradiction | discriminate].
Qed.


(** *** [LiveStrategy] *)

Lemma ls_renderChanges_fst (t : Live) :
  fst (ls_renderChanges delta updatePositionAndHeight t)
  = fst (renderHunks delta updatePositionAndHeight t).
Proof.
  unfold ls_renderChanges.
  destruct (renderHunks delta updatePositionAndHeight t). reflexivity.
Qed.

Lemma renderHunks_ready (t : Live) (n : nat) :
  NoDup (map hunk_id (ls_hunks t)) ->
  length (pendingHunks (ls_hunks t)) = n ->
  lsReady n (fst (renderHunks delta updatePositionAndHeight t)) /\
  ls_hunks (fst (renderHunks delta updatePositionAndHeight t)) = ls_hunks t /\
  ls_events (fst (renderHunks delta updatePositionAndHeight t))
  = ls_events t ++
    match n with
    | O => if bool_decide (ls_hunks t = []) then []
           else [terminalEvent (ls_hunks t)]
    | S _ => []
    end.
Proof.
  intros Hnd Hn. pose proof (renderHunks_nearest t Hnd) as Ht.
  destruct (pendingHunks (ls_hunks t)) as [| x xs] eqn:Hp.
  - destruct Ht as (_ & Hh & He). simpl in Hn. subst n.
    unfold lsReady. rewrite Hh, He, Hp.
    split; [| split; reflexivity].
    split; [exact Hnd |]. split; [reflexivity |]. intros Hc. contradiction.
  - destruct Ht as (h & Hnear & Hh & Hact & He & _). simpl in Hn. subst n.
    unfold lsReady. rewrite Hh, He, Hact, Hp, app_nil_r.
    split; [| split; reflexivity].
    split; [exact Hnd |]. split; [reflexivity |].
    intros _. exists h. apply isNearestIn_elem in Hnear.
    rewrite <- Hp in Hnear. apply pendingHunks_elem in Hnear.
    destruct Hnear. auto.
Qed.

Lemma ls_act_ready (a : UserAction) (t : Live) (n : nat) :
  lsReady (S n) t ->
  lsReady n (ls_act delta updatePositionAndHeight retrack a t) /\
  ls_events (ls_act delta updatePositionAndHeight retrack a t)
  = ls_events t ++
    match n with
    | O => [terminalEvent
              (ls_hunks (ls_act delta updatePositionAndHeight retrack a t))]
    | S _ => []
    end.
Proof.
  intros (Hnd & Hn & Hact). destruct (Hact (Nat.neq_succ_0 n))
    as (h & Hin & Hst & Hb).
  unfold ls_act. rewrite Hb.
  set (t1 := mkLive _ _ _ _ _).
  assert (Hids : map hunk_id (ls_hunks t1) = map hunk_id (ls_hunks t)).
  { unfold t1. simpl. apply resolveChanges_ids. }
  assert (Hnd1 : NoDup (map hunk_id (ls_hunks t1))).
  { rewrite Hids. exact Hnd. }
  assert (Hn1 : length (pendingHunks (ls_hunks t1)) = n).
  { unfold t1. simpl.
    pose proof (resolveChanges_pending a _ h Hnd Hin Hst) as Hc. lia. }
  assert (Hne : ls_hunks t1 <> []).
  { intros He. rewrite He in Hids. simpl in Hids.
    destruct (ls_hunks t); [destruct Hin | discriminate]. }
  destruct (renderHunks_ready t1 n Hnd1 Hn1) as (Hr & Hh & He).
  split; [exact Hr |]. rewrite He, Hh.
  rewrite bool_decide_eq_false_2 by exact Hne. reflexivity.
Qed.

Lemma ls_run_quiet (acts : list UserAction) (t : Live) (n : nat) :
  lsReady (length acts + n) t ->
  lsReady n (ls_run delta updatePositionAndHeight retrack acts t) /\
  (n <> O ->
   ls_events (ls_run delta updatePositionAndHeight retrack acts t)
   = ls_events t).
Proof.
  revert t. induction acts as [| a acts IH]; intros t Ht; simpl in *.
  - auto.
  - destruct (ls_act_ready a t (length acts + n)%nat Ht) as (Hr & He).
    destruct (IH _ Hr) as (Hr' & He'). split; [exact Hr' |].
    intros Hn. rewrite (He' Hn), He.
    destruct (length acts + n)%nat eqn:Hl; [lia |]. apply app_nil_r.
Qed.

Lemma ls_run_app (acts1 acts2 : list UserAction) (t : Live) :
  ls_run delta updatePositionAndHeight retrack (acts1 ++ acts2) t
  = ls_run delta updatePositionAndHeight retrack acts2
      (ls_run delta updatePositionAndHeight retrack acts1 t).
Proof. unfold ls_run. apply fold_left_app. Qed.

Lemma ls_run_exhausts (acts : list UserAction) (t : Live) :
  acts <> [] ->
  lsReady (length acts) t ->
  pendingHunks (ls_hunks (ls_run delta updatePositionAndHeight retrack acts t))
  = [] /\
  ls_events (ls_run delta updatePositionAndHeight retrack acts t)
  = ls_events t ++
    [terminalEvent
       (ls_hunks (ls_run delta updatePositionAndHeight retrack acts t))] /\
  (forall acts1 acts2,
     acts = acts1 ++ acts2 -> acts2 <> [] ->
     ls_events (ls_run delta updatePositionAndHeight retrack acts1 t)
     = ls_events t).
Proof.
  intros Hne Ht. split; [| split].
  - destruct (ls_run_quiet acts t 0) as ((_ & Hn & _) & _).
    + rewrite Nat.add_0_r. exact Ht.
    + apply length_zero_iff_nil. exact Hn.
  - destruct (exists_last Hne) as (front & a & ->).
    rewrite length_app in Ht. simpl in Ht.
    destruct (ls_run_quiet front t 1 Ht) as (Hr & He).
    rewrite ls_run_app. simpl.
    destruct (ls_act_ready a _ 0%nat Hr) as (_ & Ha).
    rewrite Ha, He by discriminate. reflexivity.
  - intros acts1 acts2 -> Hne2. rewrite length_app in Ht.
    destruct (ls_run_quiet acts1 t (length acts2) Ht) as (_ & He).
    apply He. destruct acts2; [contradiction | discriminate].
Qed.

(** C3, amended: a store of distinct hunks of which at least one is
    pending is rendered, and then as many [acceptHunk]/[discardHunk]
    actions are taken as hunks are pending.  In both live strategies no
    hunk is pending afterwards, no notification fires before the last
    action, and the last action fires exactly one: [onDidAccept] when a
    hunk of the store is [Accepted], [onDidDiscard] when none is. *)
Theorem one_terminal_notification (hs : list Hunk) (zone : Z)
    (acts : list UserAction) :
  NoDup (map hunk_id hs) ->
  pendingHunks hs <> [] ->
  length acts = length (pendingHunks hs) ->
  (pendingHunks
     (lp_hunks
        (lp_run delta updatePositionAndHeight retrack acts
           (fst (lp_renderChanges delta updatePositionAndHeight
                   (lp_new hs zone))))) = [] /\
   lp_events
     (lp_run delta updatePositionAndHeight retrack acts
        (fst (lp_renderChanges delta updatePositionAndHeight (lp_new hs zone))))
   = [terminalEvent
        (lp_hunks
           (lp_run delta updatePositionAndHeight retrack acts
              (fst (lp_renderChanges delta updatePositionAndHeight
                      (lp_new hs zone)))))] /\
   forall acts1 acts2,
     acts = acts1 ++ acts2 -> acts2 <> [] ->
     lp_events
       (lp_run delta updatePositionAndHeight retrack acts1
          (fst (lp_renderChanges delta updatePositionAndHeight
                  (lp_new hs zone)))) = []) /\
  (pendingHunks
     (ls_hunks
        (ls_run delta updatePositionAndHeight retrack acts
           (fst (ls_renderChanges delta updatePositionAndHeight
                   (ls_new hs zone))))) = [] /\
   ls_events
     (ls_run delta updatePositionAndHeight retrack acts
        (fst (ls_renderChanges delta updatePositionAndHeight (ls_new hs zone))))
   = [terminalEvent
        (ls_hunks
           (ls_run delta updatePositionAndHeight retrack acts
              (fst (ls_renderChanges delta updatePositionAndHeight
                      (ls_new hs zone)))))] /\
   forall acts1 acts2,
     acts = acts1 ++ acts2 -> acts2 <> [] ->
     ls_events
       (ls_run delta updatePositionAndHeight retrack acts1
          (fst (ls_renderChanges delta updatePositionAndHeight
                  (ls_new hs zone)))) = []) /\
  (forall hunks,
     (terminalEvent hunks = DidAccept
      <-> exists h, In h hunks /\ hunk_state h = Accepted) /\
     (terminalEvent hunks = DidDiscard
      <-> forall h, In h hunks -> hunk_state h <> Accepted)).
Proof.
  intros Hnd Hne Hlen.
  assert (Hacts : acts <> []).
  { destruct acts; [| discriminate].
    destruct (pendingHunks hs); [contradiction | discriminate]. }
  split; [| split].
  - unfold lp_renderChanges.
    destruct (updateDiffZones_ready (lp_new hs zone) (length acts) Hnd
                (eq_sym Hlen)) as (Hr & _ & He).
    destruct (lp_run_exhausts acts _ Hacts Hr) as (Hp & Hev & Hq).
    split; [exact Hp |]. rewrite He in Hev, Hq.
    destruct (length acts) eqn:Hl;
      [destruct acts; [contradiction | discriminate] |].
    simpl in Hev, Hq. auto.
  - rewrite ls_renderChanges_fst.
    destruct (renderHunks_ready (ls_new hs zone) (length acts) Hnd
                (eq_sym Hlen)) as (Hr & _ & He).
    destruct (ls_run_exhausts acts _ Hacts Hr) as (Hp & Hev & Hq).
    split; [exact Hp |]. rewrite He in Hev, Hq.
    destruct (length acts) eqn:Hl;
      [destruct acts; [contradiction | discriminate] |].
    simpl in Hev, Hq. auto.
  - intros hunks. split;
      [apply terminalEvent_accept | apply terminalEvent_discard].
Qed.


End StrategyFacts.

(** ** Undo *)

Section UndoFacts.

Context {M : Type} `{ITextModel M}.

(** A bound on the undo steps a model still has. *)
Variable undoDepth : M -> nat.
Hypothesis undo_decreases :
  forall m, canUndo m = true -> (undoDepth (undo m) < undoDepth m)%nat.

Lemma undoModelUntil_trace (fuel : nat) (m : M) (target : Z) (n : nat)
    (m' : M) :
  undoModelUntil fuel m target = Some (n, m') ->
  m' = Nat.iter n undo m /\
  (forall k, (k < n)%nat -> undoCondition target (Nat.iter k undo m) = true) /\
  undoCondition target m' = false.
Proof.
  revert m n m'. induction fuel as [| fuel IH]; intros m n m' Hrun;
    [discriminate |].
  simpl in Hrun. destruct (undoCondition target m) eqn:Hc.
  - destruct (undoModelUntil fuel (undo m) target) as [[n1 m1] |] eqn:Hrec;
      [| discriminate].
    injection Hrun as <- <-.
    destruct (IH _ _ _ Hrec) as (Hm & Hk & Hstop).
    split; [| split].
    + rewrite Nat.iter_succ_r. exact Hm.
    + intros [| k] Hlt; [exact Hc |].
      rewrite Nat.iter_succ_r. apply Hk. lia.
    + exact Hstop.
  - injection Hrun as <- <-. split; [reflexivity |].
    split; [intros k Hk; lia | exact Hc].
Qed.

Lemma undoModelUntil_total (fuel : nat) (m : M) (target : Z) :
  (undoDepth m < fuel)%nat ->
  exists n m', undoModelUntil fuel m target = Some (n, m').
Proof.
  revert m. induction fuel as [| fuel IH]; intros m Hd; [lia |].
  simpl. destruct (undoCondition target m) eqn:Hc; [| eauto].
  apply andb_prop in Hc. destruct Hc as (_ & Hu).
  destruct (IH (undo m)) as (n & m' & ->); [| eauto].
  pose proof (undo_decreases m Hu). lia.
Qed.

(** C6: [undoModelUntil] returns, and the model it leaves is the given
    one after [n] single undo steps, where before each of these steps the
    alternative version was above the target and undo was available, and
    after the last one of the two fails; no step is issued when the
    version is at or below the target to begin with. *)
Theorem undo_steps_while_both_hold (m : M) (target : Z) :
  exists n m',
    undoModelUntil (S (undoDepth m)) m target = Some (n, m') /\
    m' = Nat.iter n undo m /\
    (forall k, (k < n)%nat ->
       target < getAlternativeVersionId (Nat.iter k undo m) /\
       canUndo (Nat.iter k undo m) = true) /\
    (getAlternativeVersionId m' <= target \/ canUndo m' = false) /\
    (getAlternativeVersionId m <= target -> n = O /\ m' = m).
Proof.
  destruct (undoModelUntil_total (S (undoDepth m)) m target) as (n & m' & Hrun);
    [lia |].
  exists n, m'. split; [exact Hrun |].
  destruct (undoModelUntil_trace _ _ _ _ _ Hrun) as (Hm & Hk & Hstop).
  split; [exact Hm |]. split; [| split].
  - intros k Hlt. specialize (Hk k Hlt). unfold undoCondition in Hk.
    apply andb_prop in Hk. destruct Hk as (Hv & Hu).
    split; [apply Z.ltb_lt; exact Hv | exact Hu].
  - unfold undoCondition in Hstop. apply andb_false_iff in Hstop.
    destruct Hstop as [Hv | Hu]; [left; apply Z.ltb_ge; exact Hv | right; exact Hu].
  - intros Hle. simpl in Hrun.
    unfold undoCondition in Hrun at 1.
    replace (target <? getAlternativeVersionId m) with false in Hrun
      by (symmetry; apply Z.ltb_ge; exact Hle).
    simpl in Hrun. injection Hrun as <- <-. auto.
Qed.

End UndoFacts.

Lemma versionsDescend_below (v : Z) (stack : list Z) :
  versionsDescend v stack -> forall w, In w stack -> w < v.
Proof.
  revert v. induction stack as [| x rest IH]; intros v Hd w Hin;
    [destruct Hin |].
  destruct Hd as (Hx & Hrest). destruct Hin as [<- | Hin]; [exact Hx |].
  specialize (IH x Hrest w Hin). lia.
Qed.

Lemma usm_loop (stack : list Z) (cur v : Z) :
  versionsDescend cur stack -> v < cur ->
  exists n m',
    undoModelUntil (S (length stack)) (mkUndoStackModel cur stack) v
    = Some (n, m') /\
    (stack <> [] -> (1 <= n)%nat) /\
    ((usm_version m' <= v /\
      (In v stack -> usm_version m' = v) /\
      (forall w, In w stack -> w <= v -> w <= usm_version m'))
     \/
     (v < usm_version m' /\ usm_undoStack m' = [] /\
      forall w, In w (cur :: stack) -> usm_version m' <= w)).
Proof.
  revert cur. induction stack as [| x rest IH]; intros cur Hd Hv.
  - exists O, (mkUndoStackModel cur []). simpl.
    unfold undoCondition. simpl. rewrite andb_false_r.
    split; [reflexivity |]. split; [congruence |]. right. simpl.
    split; [exact Hv |]. split; [reflexivity |]. intros w [<- | []]. lia.
  - destruct Hd as (Hx & Hrest).
    pose proof (versionsDescend_below x rest Hrest) as Hbelow.
    change (undoModelUntil (S (length (x :: rest)))
              (mkUndoStackModel cur (x :: rest)) v)
      with (if undoCondition v (mkUndoStackModel cur (x :: rest))
            then match undoModelUntil (S (length rest))
                         (mkUndoStackModel x rest) v with
                 | Some (n, model') => Some (S n, model')
                 | None => None
                 end
            else Some (O, mkUndoStackModel cur (x :: rest))).
    replace (undoCondition v (mkUndoStackModel cur (x :: rest))) with true
      by (unfold undoCondition; simpl; symmetry; rewrite andb_true_r;
          apply Z.ltb_lt; exact Hv).
    destruct (Z.le_gt_cases x v) as [Hle | Hgt].
    + exists 1%nat, (mkUndoStackModel x rest).
      change (undoModelUntil (S (length rest)) (mkUndoStackModel x rest) v)
        with (if undoCondition v (mkUndoStackModel x rest)
              then match undoModelUntil (length rest)
                           (undo (mkUndoStackModel x rest)) v with
                   | Some (n, model') => Some (S n, model')
                   | None => None
                   end
              else Some (O, mkUndoStackModel x rest)).
      replace (undoCondition v (mkUndoStackModel x rest)) with false
        by (unfold undoCondition; simpl; symmetry; apply andb_false_iff;
            left; apply Z.ltb_ge; exact Hle).
      split; [reflexivity |]. split; [lia |]. left. simpl.
      split; [exact Hle |]. split.
      * intros [-> | Hin]; [reflexivity |]. specialize (Hbelow v Hin). lia.
      * intros w [<- | Hin] _; [lia |]. specialize (Hbelow w Hin). lia.
    + destruct (IH x Hrest Hgt) as (n & m' & -> & _ & Hres).
      exists (S n), m'. split; [reflexivity |]. split; [lia |].
      destruct Hres as [(Hm & Hexact & Hmax) | (Hm & Hempty & Hmin)].
      * left. split; [exact Hm |]. split.
        -- intros [-> | Hin]; [lia | auto].
        -- intros w [<- | Hin] Hw; [lia | auto].
      * right. split; [exact Hm |]. split; [exact Hempty |].
        intros w [<- | Hin]; [| auto].
        specialize (Hmin x (or_introl eq_refl)). lia.
Qed.

(** C5, as stated, fails: from version 9, with an undo history that
    restores version 5 and then version 1, undoing to version 7 stops on
    version 5 while a further undo step is still available. *)
Lemma undo_steps_over_target :
  undoModelUntil 3 (mkUndoStackModel 9 [5; 1]) 7
  = Some (1%nat, mkUndoStackModel 5 [1]) /\
  canUndo (mkUndoStackModel 5 [1]) = true /\
  getAlternativeVersionId (mkUndoStackModel 5 [1]) < 7.
Proof. repeat split. Qed.

(** C5, amended: on a document whose undo steps restore ever older
    alternative versions, undoing to a target below the current version
    with a step available issues at least one step and ends either on a
    version at or below the target, the newest such version of the
    history, which is the target itself when the history holds it, or,
    with the history used up, above the target on the oldest version
    there is. *)
Theorem undo_reaches_target_or_oldest (m : UndoStackModel) (target : Z) :
  versionsDescend (usm_version m) (usm_undoStack m) ->
  target < getAlternativeVersionId m ->
  canUndo m = true ->
  exists n m',
    undoModelUntil (S (length (usm_undoStack m))) m target = Some (n, m') /\
    (1 <= n)%nat /\
    ((getAlternativeVersionId m' <= target /\
      (In target (usm_undoStack m) -> getAlternativeVersionId m' = target) /\
      (forall w, In w (usm_undoStack m) -> w <= target ->
                 w <= getAlternativeVersionId m'))
     \/
     (target < getAlternativeVersionId m' /\ canUndo m' = false /\
      forall w, In w (usm_version m :: usm_undoStack m) ->
                getAlternativeVersionId m' <= w)).
Proof.
  destruct m as [cur stack]. simpl. intros Hd Hv Hu.
  destruct (usm_loop stack cur target Hd Hv) as (n & m' & Hrun & Hn & Hres).
  exists n, m'. split; [exact Hrun |]. split.
  - apply Hn. intros ->. discriminate.
  - destruct Hres as [Hres | (Hm & Hempty & Hmin)]; [left; exact Hres |].
    right. split; [exact Hm |]. split; [| exact Hmin].
    rewrite Hempty. reflexivity.
Qed.

(** ** Applying edits *)

Section MakeChangesFacts.

Variable countWords : string -> Z.

Lemma makeChanges_effects (s : EditModeStrategy)
    (edits : list ISingleEditOperation)
    (opts : option ProgressingEditsOptions) (progress : bool) :
  exists rest,
    existsb isPushUndoStop rest = false /\
    snd (_makeChanges countWords s edits opts progress)
    = (if _editCount s =? 0 then [PushUndoStop] else []) ++ rest /\
    _editCount (fst (_makeChanges countWords s edits opts progress))
    = _editCount s + 1.
Proof.
  unfold _makeChanges. simpl.
  replace (_editCount s + 1 =? 1) with (_editCount s =? 0)
    by (destruct (Z.eqb_spec (_editCount s) 0);
        destruct (Z.eqb_spec (_editCount s + 1) 1); lia || reflexivity).
  eexists. split; [| split; reflexivity].
  destruct opts as [o |]; [| reflexivity].
  induction edits as [| e es IH]; [reflexivity | exact IH].
Qed.

Lemma doCall_effects (kind : StrategyKind) (s : EditModeStrategy) (c : Call) :
  exists rest,
    existsb isPushUndoStop rest = false /\
    snd (doCall countWords kind s c)
    = (if _editCount s =? 0 then [PushUndoStop] else []) ++ rest /\
    _editCount (fst (doCall countWords kind s c)) = _editCount s + 1.
Proof.
  destruct c as [edits | edits opts];
    unfold doCall, makeChanges, makeProgressiveChanges;
    apply makeChanges_effects.
Qed.

Lemma doCalls_later (kind : StrategyKind) (calls : list Call)
    (s : EditModeStrategy) :
  0 < _editCount s ->
  existsb isPushUndoStop (snd (doCalls countWords kind s calls)) = false.
Proof.
  revert s. induction calls as [| c calls IH]; intros s Hs; [reflexivity |].
  simpl. destruct (doCall_effects kind s c) as (rest & Hrest & Heff & Hcount).
  destruct (doCall countWords kind s c) as [s1 effects1]. simpl in *.
  specialize (IH s1). destruct (doCalls countWords kind s1 calls) as [s2 effects2].
  simpl in *. rewrite existsb_app, IH by lia. rewrite Heff.
  destruct (Z.eqb_spec (_editCount s) 0); [lia |]. simpl. rewrite Hrest.
  reflexivity.
Qed.

(** C7: the first [makeChanges] or [makeProgressiveChanges] call of a
    strategy starts with [pushUndoStop()], before any edit is applied, and
    pushes no second one; no later call of the same strategy pushes one. *)
Theorem undo_stop_before_first_batch_only (kind : StrategyKind) (c : Call)
    (calls : list Call) :
  exists rest,
    snd (doCall countWords kind newStrategy c) = PushUndoStop :: rest /\
    existsb isPushUndoStop rest = false /\
    existsb isPushUndoStop
      (snd (doCalls countWords kind
              (fst (doCall countWords kind newStrategy c)) calls)) = false /\
    snd (doCalls countWords kind newStrategy (c :: calls))
    = PushUndoStop :: rest ++
      snd (doCalls countWords kind
             (fst (doCall countWords kind newStrategy c)) calls).
Proof.
  destruct (doCall_effects kind newStrategy c) as (rest & Hrest & Heff & Hcount).
  exists rest. simpl in Heff. split; [exact Heff |]. split; [exact Hrest |].
  split.
  - apply doCalls_later. rewrite Hcount. reflexivity.
  - simpl. destruct (doCall countWords kind newStrategy c) as [s1 effects1].
    simpl in *. destruct (doCalls countWords kind s1 calls) as [s2 effects2].
    simpl. rewrite Heff. reflexivity.
Qed.

(** *** The rate in the effect trace *)

Lemma durationInSec_zero (opts : ProgressingEditsOptions) :
  (durationInSec opts == 0)%Q <-> (duration opts == 0)%Q.
Proof.
  unfold durationInSec. split; intros Hz.
  - unfold Qdiv in Hz. apply Qmult_integral in Hz.
    destruct Hz as [Hz | Hz]; [exact Hz | discriminate Hz].
  - rewrite Hz. reflexivity.
Qed.

End MakeChangesFacts.

(** *** The rate on doubles *)

Ltac case_class :=
  repeat match goal with
         | |- context [if ?b then _ else _] => destruct b
         end.

Lemma isZero_spec (x : float) :
  isZero x = match Prim2SF x with S754_zero _ => true | _ => false end.
Proof.
  unfold isZero. rewrite classify_spec.
  destruct (Prim2SF x) as [[] | [] | | [] m e]; simpl; case_class; reflexivity.
Qed.

Lemma Number_isNaN_spec (x : float) :
  Number_isNaN x = match Prim2SF x with S754_nan => true | _ => false end.
Proof.
  unfold Number_isNaN. rewrite classify_spec.
  destruct (Prim2SF x) as [[] | [] | | [] m e]; simpl; case_class; reflexivity.
Qed.

Lemma Number_isFinite_spec (x : float) :
  Number_isFinite x
  = match Prim2SF x with
    | S754_nan | S754_infinity _ => false
    | _ => true
    end.
Proof.
  unfold Number_isFinite. rewrite classify_spec.
  destruct (Prim2SF x) as [[] | [] | | [] m e]; simpl; case_class; reflexivity.
Qed.

(** A division by [0] or by [-0] never gives a finite number. *)
Lemma div_by_zero_not_finite (x d : float) :
  isZero d = true -> Number_isFinite (x / d)%float = false.
Proof.
  rewrite isZero_spec, Number_isFinite_spec, div_spec.
  destruct (Prim2SF d) as [sd | sd | | sd md ed]; try discriminate.
  intros _. destruct (Prim2SF x) as [sx | sx | | sx mx ex]; reflexivity.
Qed.

Lemma zero_div_zero_nan (x d : float) :
  isZero x = true -> isZero d = true -> Number_isNaN (x / d)%float = true.
Proof.
  rewrite !isZero_spec, Number_isNaN_spec, div_spec.
  destruct (Prim2SF x) as [sx | sx | | sx mx ex]; try discriminate.
  destruct (Prim2SF d) as [sd | sd | | sd md ed]; try discriminate.
  reflexivity.
Qed.

Lemma zero_div_nonzero (x d : float) :
  isZero x = true -> isZero d = false -> Number_isNaN d = false ->
  isZero (x / d)%float = true.
Proof.
  rewrite !isZero_spec, Number_isNaN_spec, div_spec.
  destruct (Prim2SF x) as [sx | sx | | sx mx ex]; try discriminate.
  destruct (Prim2SF d) as [sd | sd | | sd md ed]; try discriminate;
    reflexivity.
Qed.

Section RateFacts.

Variable countWords : string -> Z.

Lemma ratesOf_nth (before after : list ISingleEditOperation)
    (edit : ISingleEditOperation) (duration : float) :
  nth_error (ratesOf countWords (before ++ edit :: after) duration)
    (length before)
  = Some (edit, speedOfDouble countWords edit duration).
Proof.
  unfold ratesOf. induction before as [| e before IH]; [reflexivity |].
  exact IH.
Qed.

(** C9, amended: the rate handed to the timeline for an edit is the number
    of words of its text ([countWords], of the empty text when [text] is
    [null]) divided, as doubles are, by the duration in seconds,
    [duration / 1000].  The divisor depends on the duration alone.  When it
    is zero the rate is not a finite number whatever the text, and [NaN]
    for a text without words; when it is neither zero nor [NaN] the rate of
    a text without words is zero. *)
Theorem speed_is_words_per_second (edit : ISingleEditOperation)
    (duration : float) :
  durationInSecDouble duration = (duration / 1000)%float /\
  speedOfDouble countWords edit duration
  = (Number_ofZ (countWords (textOf edit)) / durationInSecDouble duration)%float /\
  (forall before after : list ISingleEditOperation,
     nth_error (ratesOf countWords (before ++ edit :: after) duration)
       (length before)
     = Some (edit, speedOfDouble countWords edit duration)) /\
  (isZero (durationInSecDouble duration) = true ->
   Number_isFinite (speedOfDouble countWords edit duration) = false /\
   (countWords (textOf edit) = 0 ->
    Number_isNaN (speedOfDouble countWords edit duration) = true)) /\
  (isZero (durationInSecDouble duration) = false ->
   Number_isNaN (durationInSecDouble duration) = false ->
   countWords (textOf edit) = 0 ->
   isZero (speedOfDouble countWords edit duration) = true).
Proof.
  split; [reflexivity |]. split; [reflexivity |].
  split; [intros before after; apply ratesOf_nth |]. split.
  - intros Hz. split; [apply div_by_zero_not_finite; exact Hz |].
    intros Hw. unfold speedOfDouble. rewrite Hw.
    apply zero_div_zero_nan; [reflexivity | exact Hz].
  - intros Hz Hn Hw. unfold speedOfDouble. rewrite Hw.
    apply zero_div_nonzero; [reflexivity | exact Hz | exact Hn].
Qed.

End RateFacts.

(** C9, as stated, fails: with a duration of 0 the divisor is 0 and the
    code divides by it, for an empty text (0 / 0) as for any other; so it
    does with the smallest positive duration, 2^-1074, which a division by
    1000 rounds to 0. *)
Lemma speed_divides_by_zero :
  durationInSecDouble 0 = 0%float /\
  speedOfDouble countWordsModel (mkEdit (lines 1 1) (Some ""%string)) 0 = nan /\
  speedOfDouble countWordsModel (mkEdit (lines 1 1) None) 0 = nan /\
  speedOfDouble countWordsModel (mkEdit (lines 1 1) (Some "hi"%string)) 0
  = infinity /\
  durationInSecDouble 0x1p-1074 = 0%float /\
  speedOfDouble countWordsModel (mkEdit (lines 1 1) (Some ""%string)) 0x1p-1074
  = nan /\
  speedOfDouble countWordsModel (mkEdit (lines 1 1) (Some "hi"%string)) 0x1p-1074
  = infinity.
Proof. repeat split; vm_compute; reflexivity. Qed.

(** ** Paced and immediate application *)

#[local] Arguments String.append !_ _ / : simpl nomatch.

Lemma str_append_assoc (a b c : string) :
  String.append (String.append a b) c = String.append a (String.append b c).
Proof. induction a as [| x a IH]; simpl; [reflexivity | rewrite IH; reflexivity]. Qed.

Lemma str_append_empty (a : string) : String.append a EmptyString = a.
Proof. induction a as [| x a IH]; simpl; [reflexivity | rewrite IH; reflexivity]. Qed.

Lemma str_length_append (a b : string) :
  String.length (String.append a b)
  = (String.length a + String.length b)%nat.
Proof. induction a as [| x a IH]; simpl; [reflexivity | rewrite IH; reflexivity]. Qed.

Lemma str_take_append (a b : string) :
  str_take (String.length a) (String.append a b) = a.
Proof. induction a as [| x a IH]; simpl; [destruct b | rewrite IH]; reflexivity. Qed.

Lemma str_drop_append (a b : string) :
  str_drop (String.length a) (String.append a b) = b.
Proof. induction a as [| x a IH]; simpl; [destruct b; reflexivity | exact IH]. Qed.

Lemma str_take_length (n : nat) (s : string) :
  String.length (str_take n s) = Nat.min n (String.length s).
Proof.
  revert s. induction n as [| n IH]; intros [| c s]; simpl; try reflexivity.
  rewrite IH. reflexivity.
Qed.

(** Inserting at the end of what has been written so far. *)
Lemma replaceOffsets_at_end (written rest part : string) :
  replaceOffsets (String.append written rest) (String.length written)
    (String.length written) part
  = String.append (String.append written part) rest.
Proof.
  unfold replaceOffsets. rewrite str_length_append.
  replace (Nat.min (String.length written)
             (String.length written + String.length rest))
    with (String.length written) by lia.
  rewrite Nat.max_id, str_take_append, str_drop_append, str_append_assoc.
  reflexivity.
Qed.

Lemma insertParts_concat (parts : list string) (written rest : string) :
  insertParts (String.append written rest) (String.length written) parts
  = String.append written (String.append (concatParts parts) rest).
Proof.
  revert written. induction parts as [| part parts IH]; intros written.
  - reflexivity.
  - simpl. rewrite replaceOffsets_at_end, <- str_length_append, IH.
    rewrite !str_append_assoc. reflexivity.
Qed.

Section DocumentFacts.

Variable countWords : string -> Z.
Variable getOffsetAt : string -> Position -> nat.
Variable subEdits : string -> JsNumber -> list string.

(** The timeline's contract (section 4.1): at a finite rate, the parts
    put together are the text, and there is at least one part (an edit
    with no text still removes its range). *)
Hypothesis subEdits_concat :
  forall text speed,
    isFinite speed = true -> concatParts (subEdits text speed) = text.
Hypothesis subEdits_some :
  forall text speed, isFinite speed = true -> subEdits text speed <> [].

Lemma performAsyncTextEdit_whole (doc : string) (edit : ISingleEditOperation)
    (parts : list string) :
  parts <> [] ->
  performAsyncTextEdit getOffsetAt doc edit parts
  = replaceOffsets doc (startOffset getOffsetAt doc edit)
      (endOffset getOffsetAt doc edit) (concatParts parts).
Proof.
  intros Hne. destruct parts as [| part rest]; [contradiction |].
  unfold performAsyncTextEdit, replaceOffsets.
  set (s := Nat.min (startOffset getOffsetAt doc edit) (String.length doc)).
  set (e := Nat.max s _).
  assert (Hs : String.length (str_take s doc) = s).
  { rewrite str_take_length. unfold s. lia. }
  rewrite <- Hs at 2. rewrite <- str_length_append.
  rewrite <- str_append_assoc, insertParts_concat.
  simpl. rewrite !str_append_assoc. reflexivity.
Qed.

Lemma speedOf_finite (edit : ISingleEditOperation)
    (opts : ProgressingEditsOptions) :
  (0 < duration opts)%Q -> isFinite (speedOf countWords edit opts) = true.
Proof.
  intros Hd. unfold speedOf, js_div.
  destruct (Qeq_bool (durationInSec opts) 0) eqn:Hb; [| reflexivity].
  apply Qeq_bool_iff, durationInSec_zero in Hb.
  rewrite Hb in Hd. discriminate Hd.
Qed.

Lemma paced_edits_content (opts : ProgressingEditsOptions) (progress : bool)
    (edits : list ISingleEditOperation) (doc : string) :
  (0 < duration opts)%Q ->
  cancelAfter (token opts) = None ->
  finalContent getOffsetAt subEdits doc
    (map (fun edit =>
            PerformAsyncTextEdit edit (speedOf countWords edit opts)
              (token opts) progress) edits)
  = pushEditOperations getOffsetAt doc edits.
Proof.
  intros Hd Hc. revert doc. unfold finalContent, pushEditOperations.
  induction edits as [| edit edits IH]; intros doc; [reflexivity |].
  simpl. rewrite <- IH. f_equal.
  unfold asProgressiveEdit. rewrite Hc.
  rewrite performAsyncTextEdit_whole
    by (apply subEdits_some, speedOf_finite, Hd).
  rewrite subEdits_concat by (apply speedOf_finite, Hd). reflexivity.
Qed.

Lemma finalContent_app (doc : string) (e1 e2 : list Effect) :
  finalContent getOffsetAt subEdits doc (e1 ++ e2)
  = finalContent getOffsetAt subEdits
      (finalContent getOffsetAt subEdits doc e1) e2.
Proof. unfold finalContent. apply fold_left_app. Qed.


End DocumentFacts.

(** ** [cancel] and [PreviewStrategy.apply] *)

Section StoreFacts.

Variable retrack : list Hunk -> list Hunk.
Variable moveChanges : Hunk -> string -> string -> string.

Hypothesis retrack_ids : forall hs, map hunk_id (retrack hs) = map hunk_id hs.
Hypothesis retrack_states :
  forall hs, map hunk_state (retrack hs) = map hunk_state hs.

Lemma discardAll_states (hs : list Hunk) :
  map hunk_state (discardAll retrack hs)
  = map discardedState (map hunk_state hs).
Proof.
  unfold discardAll. rewrite retrack_states, !map_map.
  apply map_ext. intros h. unfold discardPending, isPending.
  destruct (hunk_state h) eqn:Hs; simpl; rewrite ?Hs; reflexivity.
Qed.

Lemma discardAll_ids (hs : list Hunk) :
  map hunk_id (discardAll retrack hs) = map hunk_id hs.
Proof.
  unfold discardAll. rewrite retrack_ids, map_map.
  apply map_ext. intros h. unfold discardPending.
  destruct (isPending h); reflexivity.
Qed.

(** C8: [cancel()] of each of the three strategies leaves the store with
    the same hunks in the same order, every hunk that was [Pending] now
    [Discarded] and every other hunk in the state it had. *)
Theorem cancel_discards_pending (pv : Preview) (lp : LivePreview) (ls : Live) :
  (map hunk_state (pv_hunks (pv_cancel retrack pv))
   = map discardedState (map hunk_state (pv_hunks pv)) /\
   map hunk_id (pv_hunks (pv_cancel retrack pv)) = map hunk_id (pv_hunks pv)) /\
  (map hunk_state (lp_hunks (lp_cancel retrack lp))
   = map discardedState (map hunk_state (lp_hunks lp)) /\
   map hunk_id (lp_hunks (lp_cancel retrack lp)) = map hunk_id (lp_hunks lp)) /\
  (map hunk_state (ls_hunks (ls_cancel retrack ls))
   = map discardedState (map hunk_state (ls_hunks ls)) /\
   map hunk_id (ls_hunks (ls_cancel retrack ls)) = map hunk_id (ls_hunks ls)) /\
  discardedState Pending = Discarded /\
  discardedState Accepted = Accepted /\
  discardedState Discarded = Discarded.
Proof.
  repeat split; simpl; apply discardAll_states || apply discardAll_ids.
Qed.

Lemma pv_apply_on_snapshot (s : Preview) :
  pv_editorModel s = Some (pv_textModel0 s) ->
  pv_editorModel (pv_apply retrack moveChanges s)
  = Some (acceptAllText moveChanges (pv_hunks s) (pv_textModelN s)
            (pv_textModel0 s)) /\
  pv_hunks (pv_apply retrack moveChanges s) = acceptAllHunks retrack (pv_hunks s) /\
  pv_modelEffects (pv_apply retrack moveChanges s)
  = pv_modelEffects s ++
    [PushStackElement;
     ReplaceFullRange
       (acceptAllText moveChanges (pv_hunks s) (pv_textModelN s)
          (pv_textModel0 s));
     PushStackElement].
Proof.
  intros He. unfold pv_apply. rewrite He, String.eqb_refl. simpl. auto.
Qed.

(** C10: when the editor has no model, or its model's text is not the text
    of [textModel0], [apply()] accepts no hunk, makes no call on the
    editor's model and leaves its text, and the text of [textModel0], as
    they were. *)
Theorem preview_apply_needs_the_snapshot (s : Preview) :
  pv_editorModel s <> Some (pv_textModel0 s) ->
  pv_editorModel (pv_apply retrack moveChanges s) = pv_editorModel s /\
  pv_modelEffects (pv_apply retrack moveChanges s) = pv_modelEffects s /\
  pv_hunks (pv_apply retrack moveChanges s) = pv_hunks s /\
  pv_textModel0 (pv_apply retrack moveChanges s) = pv_textModel0 s /\
  pv_textModelN (pv_apply retrack moveChanges s) = pv_textModelN s.
Proof.
  intros Hne. unfold pv_apply.
  destruct (pv_editorModel s) as [textModel |] eqn:He; [| simpl; auto].
  destruct (String.eqb_spec textModel (pv_textModel0 s)) as [-> | Hd].
  - contradiction.
  - simpl. auto.
Qed.

End StoreFacts.

(** * The model at concrete inputs *)

Lemma keepRanges_ids (hs : list Hunk) :
  map hunk_id (keepRanges hs) = map hunk_id hs.
Proof. reflexivity. Qed.

Lemma keepRanges_states (hs : list Hunk) :
  map hunk_state (keepRanges hs) = map hunk_state hs.
Proof. reflexivity. Qed.

Lemma exampleHunks_distinct : NoDup (map hunk_id exampleHunks).
Proof.
  simpl. apply NoDup_cons. split; [| apply NoDup_singleton].
  intros Hin. apply list_elem_of_singleton in Hin. discriminate Hin.
Qed.

(** The specification's example, end to end: after a rendering with the
    zone on line 25 both strategies are bound to the hunk on lines
    10-12. *)
Lemma nearest_hunk_is_selected_witness :
  lp_actions
    (fst (_updateDiffZones plainDelta moveZoneTo (lp_new exampleHunks 25)))
  = NearestActions 1 /\
  ls_actions (fst (renderHunks plainDelta moveZoneTo (ls_new exampleHunks 25)))
  = NearestActions 1 /\
  snd (ls_renderChanges plainDelta moveZoneTo (ls_new exampleHunks 25))
  = Some (mkPosition 9 1).
Proof.
  destruct (nearest_hunk_is_selected plainDelta moveZoneTo
              (lp_new exampleHunks 25) (ls_new exampleHunks 25)
              exampleHunks_distinct) as (Hlp & Hls & _ & Hnear & _).
  destruct (Hlp _ Hnear) as (Ha & _).
  destruct (Hls _ Hnear) as (Hb & _ & Hc).
  split; [exact Ha |]. split; [exact Hb | exact Hc].
Defined.

(** Two pending hunks, two actions: one notification. *)
Lemma one_terminal_notification_witness :
  lp_events
    (lp_run plainDelta moveZoneTo keepRanges [AcceptHunk; DiscardHunk]
       (fst (lp_renderChanges plainDelta moveZoneTo (lp_new exampleHunks 25))))
  = [DidAccept] /\
  ls_events
    (ls_run plainDelta moveZoneTo keepRanges [DiscardHunk; DiscardHunk]
       (fst (ls_renderChanges plainDelta moveZoneTo (ls_new exampleHunks 25))))
  = [DidDiscard].
Proof.
  destruct (one_terminal_notification plainDelta moveZoneTo keepRanges
              keepRanges_ids keepRanges_states exampleHunks 25
              [AcceptHunk; DiscardHunk] exampleHunks_distinct)
    as ((_ & Hlp & _) & _); [discriminate | reflexivity |].
  destruct (one_terminal_notification plainDelta moveZoneTo keepRanges
              keepRanges_ids keepRanges_states exampleHunks 25
              [DiscardHunk; DiscardHunk] exampleHunks_distinct)
    as (_ & (_ & Hls & _) & _); [discriminate | reflexivity |].
  split; [rewrite Hlp | rewrite Hls]; reflexivity.
Defined.

(** C3, as stated, fails.  An action taken once no hunk is pending fires
    the notification a second time; [LivePreviewStrategy] rendered over an
    empty store fires [onDidDiscard], and [onDidAccept] as well on a
    later [acceptHunk()]; [LiveStrategy] rendered over an empty store
    fires nothing. *)
Lemma notification_not_exactly_once :
  (pendingHunks
     (lp_hunks
        (lp_run plainDelta moveZoneTo keepRanges [AcceptHunk; AcceptHunk]
           (fst (lp_renderChanges plainDelta moveZoneTo
                   (lp_new [mkHunk 1 (lines 10 12) Pending] 25))))) = [] /\
   lp_events
     (lp_run plainDelta moveZoneTo keepRanges [AcceptHunk; AcceptHunk]
        (fst (lp_renderChanges plainDelta moveZoneTo
                (lp_new [mkHunk 1 (lines 10 12) Pending] 25))))
   = [DidAccept; DidAccept]) /\
  ls_events
    (ls_run plainDelta moveZoneTo keepRanges [DiscardHunk; DiscardHunk]
       (fst (ls_renderChanges plainDelta moveZoneTo
               (ls_new [mkHunk 1 (lines 10 12) Pending] 25))))
  = [DidDiscard; DidDiscard] /\
  lp_events
    (lp_run plainDelta moveZoneTo keepRanges [AcceptHunk]
       (fst (lp_renderChanges plainDelta moveZoneTo (lp_new [] 25))))
  = [DidDiscard; DidAccept] /\
  (pendingHunks
     (ls_hunks (fst (ls_renderChanges plainDelta moveZoneTo (ls_new [] 25))))
   = [] /\
   ls_events (fst (ls_renderChanges plainDelta moveZoneTo (ls_new [] 25)))
   = []).
Proof. repeat split; vm_compute; reflexivity. Qed.

Lemma usm_undo_decreases (m : UndoStackModel) :
  canUndo m = true ->
  (length (usm_undoStack (undo m)) < length (usm_undoStack m))%nat.
Proof.
  destruct m as [v [| w rest]]; simpl; [discriminate | lia].
Qed.

(** The loop on the undo history model, bounded by the length of the
    history. *)
Lemma undo_steps_while_both_hold_witness :
  exists n m',
    undoModelUntil 3 (mkUndoStackModel 9 [5; 1]) 7 = Some (n, m') /\
    m' = Nat.iter n undo (mkUndoStackModel 9 [5; 1]) /\
    (getAlternativeVersionId m' <= 7 \/ canUndo m' = false).
Proof.
  destruct (undo_steps_while_both_hold
              (fun m : UndoStackModel => length (usm_undoStack m))
              usm_undo_decreases (mkUndoStackModel 9 [5; 1]) 7)
    as (n & m' & Hrun & Hm & _ & Hstop & _).
  exists n, m'. split; [exact Hrun |]. split; [exact Hm | exact Hstop].
Defined.

(** A target that the history holds is reached exactly. *)
Lemma undo_reaches_target_or_oldest_witness :
  exists n m',
    undoModelUntil 4 (mkUndoStackModel 9 [7; 5; 1]) 7 = Some (n, m') /\
    getAlternativeVersionId m' = 7.
Proof.
  destruct (undo_reaches_target_or_oldest (mkUndoStackModel 9 [7; 5; 1]) 7)
    as (n & m' & Hrun & _ & [(_ & Hexact & _) | (Habove & Hnone & Hmin)]).
  - simpl. repeat split.
  - reflexivity.
  - reflexivity.
  - exists n, m'. split; [exact Hrun |]. apply Hexact. left. reflexivity.
  - exists n, m'. split; [exact Hrun |].
    specialize (Hmin 7 (or_intror (or_introl eq_refl))).
    apply Z.le_antisymm; [exact Hmin | apply Z.lt_le_incl; exact Habove].
Defined.

(** [cancel()] on a store with an accepted hunk between two pending
    ones. *)
Lemma cancel_discards_pending_witness :
  map hunk_state
    (ls_hunks
       (ls_cancel keepRanges
          (ls_new [mkHunk 1 (lines 10 12) Pending;
                   mkHunk 2 (lines 20 22) Accepted;
                   mkHunk 3 (lines 40 42) Pending] 25)))
  = [Discarded; Accepted; Discarded].
Proof.
  destruct (cancel_discards_pending keepRanges keepRanges_ids keepRanges_states
              (mkPreview [] None EmptyString EmptyString [] None)
              (lp_new [] 25)
              (ls_new [mkHunk 1 (lines 10 12) Pending;
                       mkHunk 2 (lines 20 22) Accepted;
                       mkHunk 3 (lines 40 42) Pending] 25))
    as (_ & _ & (Hls & _) & _).
  rewrite Hls. reflexivity.
Defined.

(** No words: rate 0.  Three words in a second and a half: two words per
    second, handed over for the second edit. *)
Lemma speed_is_words_per_second_witness :
  isZero (speedOfDouble countWordsModel (mkEdit (lines 1 1) (Some ""%string))
            1500) = true /\
  nth_error
    (ratesOf countWordsModel
       [mkEdit (lines 1 1) None;
        mkEdit (lines 1 1) (Some "hello big world"%string)] 1500) 1
  = Some (mkEdit (lines 1 1) (Some "hello big world"%string), 2%float).
Proof.
  split.
  - destruct (speed_is_words_per_second countWordsModel
                (mkEdit (lines 1 1) (Some ""%string)) 1500)
      as (_ & _ & _ & _ & Hzero).
    apply Hzero; reflexivity.
  - destruct (speed_is_words_per_second countWordsModel
                (mkEdit (lines 1 1) (Some "hello big world"%string)) 1500)
      as (_ & _ & Hnth & _).
    etransitivity; [exact (Hnth [mkEdit (lines 1 1) None] []) |].
    vm_compute. reflexivity.
Defined.
(** [apply()] after the editor's text was typed over. *)
Lemma preview_apply_needs_the_snapshot_witness :
  pv_editorModel (pv_apply keepRanges (fun _ textN _ => textN) divergedPreview)
  = Some "typed over"%string /\
  pv_modelEffects (pv_apply keepRanges (fun _ textN _ => textN) divergedPreview)
  = [] /\
  pv_hunks (pv_apply keepRanges (fun _ textN _ => textN) divergedPreview)
  = exampleHunks.
Proof.
  destruct (preview_apply_needs_the_snapshot keepRanges
              (fun _ textN _ => textN) divergedPreview)
    as (Hm & He & Hh & _).
  - intros Heq. discriminate Heq.
  - split; [exact Hm |]. split; [exact He | exact Hh].
Defined.

Example preview_apply_replaces :
  pv_editorModel
    (pv_apply keepRanges (fun _ textN _ => textN)
       (mkPreview exampleHunks (Some "original"%string) "original"%string
          "proposed"%string [] None))
  = Some "proposed"%string.
Proof. reflexivity. Qed.

Lemma charParts_concat (text : string) : concatParts (charParts text) = text.
Proof. induction text as [| c text IH]; simpl; [| rewrite IH]; reflexivity. Qed.

Lemma charSubEdits_concat (text : string) (speed : JsNumber) :
  isFinite speed = true -> concatParts (charSubEdits text speed) = text.
Proof.
  intros _. unfold charSubEdits.
  pose proof (charParts_concat text) as Hc.
  destruct (charParts text); [simpl in *; congruence | exact Hc].
Qed.

Lemma charSubEdits_some (text : string) (speed : JsNumber) :
  isFinite speed = true -> charSubEdits text speed <> [].
Proof.
  intros _. unfold charSubEdits. destruct (charParts text); discriminate.
Qed.


(** * Further properties *)

(** ** [undoModelUntil], once more *)

Section UndoAgain.

Context {M : Type} `{ITextModel M}.

Variable undoDepth : M -> nat.
Hypothesis undo_decreases :
  forall m, canUndo m = true -> (undoDepth (undo m) < undoDepth m)%nat.

Lemma undoModelUntil_more_fuel (fuel extra : nat) (m : M) (target : Z)
    (r : nat * M) :
  undoModelUntil fuel m target = Some r ->
  undoModelUntil (fuel + extra) m target = Some r.
Proof.
  revert m r. induction fuel as [| fuel IH]; intros m r Hrun; [discriminate |].
  simpl in *. destruct (undoCondition target m); [| exact Hrun].
  destruct (undoModelUntil fuel (undo m) target) as [[n1 m1] |] eqn:Hrec;
    [| discriminate].
  rewrite (IH _ _ Hrec). exact Hrun.
Qed.

Lemma undoCondition_lower (target target' : Z) (m : M) :
  target' <= target ->
  undoCondition target m = true -> undoCondition target' m = true.
Proof.
  unfold undoCondition. intros Hle Hc. apply andb_prop in Hc.
  destruct Hc as (Hv & Hu). apply Z.ltb_lt in Hv. rewrite Hu, andb_true_r.
  apply Z.ltb_lt. lia.
Qed.

Lemma undoModelUntil_fuel_irrelevant (fuel fuel' : nat) (m : M) (target : Z)
    (r r' : nat * M) :
  undoModelUntil fuel m target = Some r ->
  undoModelUntil fuel' m target = Some r' ->
  r = r'.
Proof.
  intros Hrun Hrun'.
  apply (undoModelUntil_more_fuel fuel fuel') in Hrun.
  apply (undoModelUntil_more_fuel fuel' fuel) in Hrun'.
  rewrite Nat.add_comm in Hrun'. congruence.
Qed.

Lemma undoModelUntil_stages (fuel fuel' : nat) (m m1 m2 : M)
    (target target' : Z) (n1 n2 : nat) :
  target' <= target ->
  undoModelUntil fuel m target = Some (n1, m1) ->
  undoModelUntil fuel' m1 target' = Some (n2, m2) ->
  undoModelUntil (fuel + fuel') m target' = Some ((n1 + n2)%nat, m2) /\
  (target' = target -> n2 = O /\ m2 = m1).
Proof.
  intros Hle Hrun Hrun'. split.
  - revert m n1 Hrun. induction fuel as [| fuel IH]; intros m n1 Hrun;
      [discriminate |].
    simpl in Hrun. destruct (undoCondition target m) eqn:Hc.
    + destruct (undoModelUntil fuel (undo m) target) as [[k mk] |] eqn:Hrec;
        [| discriminate].
      injection Hrun as <- ->. simpl.
      rewrite (undoCondition_lower target target' m Hle Hc).
      rewrite (IH _ _ Hrec). reflexivity.
    + injection Hrun as <- <-. simpl Nat.add at 2.
      rewrite Nat.add_comm. apply undoModelUntil_more_fuel. exact Hrun'.
  - intros ->.
    destruct (undoModelUntil_trace _ _ _ _ _ Hrun) as (_ & _ & Hstop).
    destruct fuel' as [| fuel']; [discriminate |]. simpl in Hrun'.
    rewrite Hstop in Hrun'. injection Hrun' as <- <-. auto.
Qed.

Lemma undoModelUntil_bounded (fuel : nat) (m m' : M) (target : Z) (n : nat) :
  undoModelUntil fuel m target = Some (n, m') ->
  (undoDepth m' + n <= undoDepth m)%nat.
Proof.
  revert m n. induction fuel as [| fuel IH]; intros m n Hrun; [discriminate |].
  simpl in Hrun. destruct (undoCondition target m) eqn:Hc.
  - destruct (undoModelUntil fuel (undo m) target) as [[k mk] |] eqn:Hrec;
      [| discriminate].
    injection Hrun as <- <-. specialize (IH _ _ Hrec).
    apply andb_prop in Hc. destruct Hc as (_ & Hu).
    pose proof (undo_decreases m Hu). lia.
  - injection Hrun as <- <-. lia.
Qed.

(** Undoing to a version and then to a version not above it is undoing to
    the second version at once.  Both runs and the single run return;
    the single run leaves the model the second run leaves, and its undo
    steps are those of the two runs added up; whatever the bound on the
    rounds, a run to the second version that returns returns just that.
    With the same version twice, the second run issues no step. *)
Theorem undo_in_two_stages (m : M) (target target' : Z) :
  target' <= target ->
  exists (n1 : nat) (m1 : M) (n2 : nat) (m2 : M),
    undoModelUntil (S (undoDepth m)) m target = Some (n1, m1) /\
    undoModelUntil (S (undoDepth m1)) m1 target' = Some (n2, m2) /\
    undoModelUntil (S (undoDepth m)) m target' = Some ((n1 + n2)%nat, m2) /\
    (forall (fuel : nat) (r : nat * M),
       undoModelUntil fuel m target' = Some r -> r = ((n1 + n2)%nat, m2)) /\
    (target' = target -> n2 = O /\ m2 = m1).
Proof.
  intros Hle.
  destruct (undoModelUntil_total undoDepth undo_decreases
              (S (undoDepth m)) m target) as (n1 & m1 & Hrun1); [lia |].
  destruct (undoModelUntil_total undoDepth undo_decreases
              (S (undoDepth m1)) m1 target') as (n2 & m2 & Hrun2); [lia |].
  destruct (undoModelUntil_total undoDepth undo_decreases
              (S (undoDepth m)) m target') as (n & m' & Hrun); [lia |].
  destruct (undoModelUntil_stages _ _ _ _ _ _ _ _ _ Hle Hrun1 Hrun2)
    as (Hboth & Hsame).
  exists n1, m1, n2, m2.
  split; [exact Hrun1 |]. split; [exact Hrun2 |]. split; [| split].
  - rewrite Hrun. f_equal.
    exact (undoModelUntil_fuel_irrelevant _ _ _ _ _ _ Hrun Hboth).
  - intros fuel r Hr.
    exact (undoModelUntil_fuel_irrelevant _ _ _ _ _ _ Hr Hboth).
  - exact Hsame.
Qed.

(** [undoModelUntil] returns, having issued no more undo steps than the
    model had left: what is left of them in the model it leaves, and the
    steps issued, together do not exceed what was left before. *)
Theorem undo_steps_bounded (m : M) (target : Z) :
  exists (n : nat) (m' : M),
    undoModelUntil (S (undoDepth m)) m target = Some (n, m') /\
    (undoDepth m' + n <= undoDepth m)%nat /\
    (n <= undoDepth m)%nat.
Proof.
  destruct (undoModelUntil_total undoDepth undo_decreases
              (S (undoDepth m)) m target) as (n & m' & Hrun); [lia |].
  exists n, m'. split; [exact Hrun |].
  pose proof (undoModelUntil_bounded _ _ _ _ _ Hrun). lia.
Qed.

End UndoAgain.

(** Down to version 7, then down to version 3, on a history of three
    older versions. *)
Lemma undo_in_two_stages_witness :
  exists (n1 : nat) (m1 : UndoStackModel) (n2 : nat) (m2 : UndoStackModel),
    undoModelUntil 4 (mkUndoStackModel 9 [7; 5; 1]) 7 = Some (n1, m1) /\
    undoModelUntil (S (length (usm_undoStack m1))) m1 3 = Some (n2, m2) /\
    undoModelUntil 4 (mkUndoStackModel 9 [7; 5; 1]) 3
    = Some ((n1 + n2)%nat, m2).
Proof.
  destruct (undo_in_two_stages
              (fun m : UndoStackModel => length (usm_undoStack m))
              usm_undo_decreases (mkUndoStackModel 9 [7; 5; 1]) 7 3)
    as (n1 & m1 & n2 & m2 & Hrun1 & Hrun2 & Hrun & _).
  - vm_compute. discriminate.
  - exists n1, m1, n2, m2. split; [exact Hrun1 |]. split; [exact Hrun2 |].
    exact Hrun.
Defined.

Lemma undo_steps_bounded_witness :
  exists (n : nat) (m' : UndoStackModel),
    undoModelUntil 4 (mkUndoStackModel 9 [7; 5; 1]) 6 = Some (n, m') /\
    (length (usm_undoStack m') + n <= 3)%nat.
Proof.
  destruct (undo_steps_bounded
              (fun m : UndoStackModel => length (usm_undoStack m))
              usm_undo_decreases (mkUndoStackModel 9 [7; 5; 1]) 6)
    as (n & m' & Hrun & Hbound & _).
  exists n, m'. split; [exact Hrun | exact Hbound].
Defined.

(** ** The nearest hunk, once more *)

Lemma distance_negative (zone : Z) (r : Range) :
  distance zone r < 0 <-> startLineNumber r < zone < endLineNumber r.
Proof.
  unfold distance. destruct (Z.leb_spec zone (startLineNumber r)); lia.
Qed.

Lemma isNearestIn_least (zone : Z) (hs : list Hunk) (h g : Hunk) :
  isNearestIn zone hs h -> In g hs ->
  distance zone (hunk_rangeN h) <= distance zone (hunk_rangeN g).
Proof.
  intros (before & after & -> & Hb & Ha) Hg.
  rewrite List.Forall_forall in Hb, Ha.
  apply in_app_or in Hg. destruct Hg as [Hg | [<- | Hg]].
  - specialize (Hb g Hg). simpl in Hb. lia.
  - lia.
  - exact (Ha g Hg).
Qed.

Section SelectionAgain.

Variable delta : Position -> Z -> Position.
Variable updatePositionAndHeight : Z -> Position -> Z.
Variable retrack : list Hunk -> list Hunk.

Hypothesis retrack_ids : forall hs, map hunk_id (retrack hs) = map hunk_id hs.
Hypothesis retrack_states :
  forall hs, map hunk_state (retrack hs) = map hunk_state hs.

(** A pending hunk that has the zone line strictly inside is preferred to
    every hunk that has not: when there is one, the hunk that a rendering
    binds the actions to has the zone line strictly inside as well. *)
Theorem hunk_around_zone_is_selected (s : LivePreview) (t : Live)
    (g g' : Hunk) :
  NoDup (map hunk_id (ls_hunks t)) ->
  In g (lp_hunks s) -> hunk_state g = Pending ->
  startLineNumber (hunk_rangeN g) < lp_zoneLine s
  < endLineNumber (hunk_rangeN g) ->
  In g' (ls_hunks t) -> hunk_state g' = Pending ->
  startLineNumber (hunk_rangeN g') < ls_zoneLine t
  < endLineNumber (hunk_rangeN g') ->
  (exists h,
     In h (lp_hunks s) /\ hunk_state h = Pending /\
     startLineNumber (hunk_rangeN h) < lp_zoneLine s
     < endLineNumber (hunk_rangeN h) /\
     lp_actions (fst (_updateDiffZones delta updatePositionAndHeight s))
     = NearestActions (hunk_id h)) /\
  (exists h,
     In h (ls_hunks t) /\ hunk_state h = Pending /\
     startLineNumber (hunk_rangeN h) < ls_zoneLine t
     < endLineNumber (hunk_rangeN h) /\
     ls_actions (fst (renderHunks delta updatePositionAndHeight t))
     = NearestActions (hunk_id h)).
Proof.
  intros Hnd Hg Hgp Hgz Hg' Hgp' Hgz'. split.
  - pose proof (updateDiffZones_nearest delta updatePositionAndHeight s) as Hs.
    assert (Hin : In g (pendingHunks (lp_hunks s)))
      by (apply pendingHunks_elem; auto).
    destruct (pendingHunks (lp_hunks s)) as [| x xs] eqn:Hp; [destruct Hin |].
    destruct Hs as (h & Hnear & ->). rewrite <- Hp in Hnear, Hin.
    pose proof (isNearestIn_least _ _ _ _ Hnear Hin) as Hle.
    apply isNearestIn_elem, pendingHunks_elem in Hnear.
    destruct Hnear as (Hh & Hhp). exists h.
    split; [exact Hh |]. split; [exact Hhp |]. split; [| reflexivity].
    apply distance_negative. apply distance_negative in Hgz. lia.
  - pose proof (renderHunks_nearest delta updatePositionAndHeight t Hnd) as Ht.
    assert (Hin : In g' (pendingHunks (ls_hunks t)))
      by (apply pendingHunks_elem; auto).
    destruct (pendingHunks (ls_hunks t)) as [| x xs] eqn:Hp; [destruct Hin |].
    destruct Ht as (h & Hnear & _ & Hact & _). rewrite <- Hp in Hnear, Hin.
    pose proof (isNearestIn_least _ _ _ _ Hnear Hin) as Hle.
    apply isNearestIn_elem, pendingHunks_elem in Hnear.
    destruct Hnear as (Hh & Hhp). exists h.
    split; [exact Hh |]. split; [exact Hhp |]. split; [| exact Hact].
    apply distance_negative. apply distance_negative in Hgz'. lia.
Qed.

(** *** A position is returned exactly when a hunk is pending *)

Lemma renderStep_keeps (zone : Z) (m : gmap nat HunkDisplayData)
    (w : option nat) (x : Hunk) (k : nat) :
  is_Some (m !! k) -> is_Some (fst (renderStep delta zone (m, w) x) !! k).
Proof.
  intros Hk. destruct (decide (k = hunk_id x)) as [-> | Hne].
  - apply renderStep_here.
  - rewrite renderStep_other by exact Hne. exact Hk.
Qed.

Lemma renderStep_widget (zone : Z) (m : gmap nat HunkDisplayData)
    (w : option nat) (x : Hunk) :
  snd (renderStep delta zone (m, w) x) = w \/
  (isPending x = true /\
   snd (renderStep delta zone (m, w) x) = Some (hunk_id x)).
Proof.
  unfold renderStep. cbn [snd].
  destruct (isPending x); [| left; reflexivity].
  match goal with
  | |- context [true && ?b] => destruct b
  end; [right; auto | left; reflexivity].
Qed.

Lemma renderStep_first_pending (zone : Z) (m : gmap nat HunkDisplayData)
    (x : Hunk) :
  isPending x = true ->
  snd (renderStep delta zone (m, None) x) = Some (hunk_id x).
Proof. intros Hp. unfold renderStep. cbn [snd]. rewrite Hp. reflexivity. Qed.

Lemma renderLoop_widget (zone : Z) (hs : list Hunk)
    (acc : gmap nat HunkDisplayData * option nat) :
  (forall k, snd acc = Some k -> is_Some (fst acc !! k)) ->
  (forall k, snd (fold_left (renderStep delta zone) hs acc) = Some k ->
             is_Some (fst (fold_left (renderStep delta zone) hs acc) !! k)) /\
  (snd (fold_left (renderStep delta zone) hs acc) = None
   <-> snd acc = None /\ pendingHunks hs = []).
Proof.
  revert acc. induction hs as [| x hs IH]; intros [m w] Hacc.
  - simpl. split; [exact Hacc | tauto].
  - cbn [fold_left].
    destruct (IH (renderStep delta zone (m, w) x)) as (Hsome & Hnone).
    { intros k Hk.
      destruct (renderStep_widget zone m w x) as [Hw | (_ & Hw)];
        rewrite Hw in Hk.
      - apply renderStep_keeps. exact (Hacc k Hk).
      - injection Hk as <-. apply renderStep_here. }
    split; [exact Hsome |]. rewrite Hnone. cbn [snd]. unfold pendingHunks.
    simpl List.filter.
    destruct (isPending x) eqn:Hp.
    + split; [| intros (_ & Hc); discriminate].
      intros (Hw & _). exfalso.
      destruct w as [k |].
      * destruct (renderStep_widget zone m (Some k) x) as [Hx | (_ & Hx)];
          rewrite Hx in Hw; discriminate.
      * rewrite renderStep_first_pending in Hw by exact Hp. discriminate.
    + destruct (renderStep_widget zone m w x) as [Hx | (Hc & _)];
        [| congruence].
      rewrite Hx. reflexivity.
Qed.

(** [renderChanges] of the two live strategies returns a position exactly
    when a hunk is pending, and a rendering that returns a position fires
    no notification. *)
Theorem position_returned_iff_pending (s : LivePreview) (t : Live) :
  (snd (lp_renderChanges delta updatePositionAndHeight s) = None
   <-> pendingHunks (lp_hunks s) = []) /\
  (snd (ls_renderChanges delta updatePositionAndHeight t) = None
   <-> pendingHunks (ls_hunks t) = []) /\
  (pendingHunks (lp_hunks s) <> [] ->
   lp_events (fst (lp_renderChanges delta updatePositionAndHeight s))
   = lp_events s) /\
  (pendingHunks (ls_hunks t) <> [] ->
   ls_events (fst (ls_renderChanges delta updatePositionAndHeight t))
   = ls_events t).
Proof.
  assert (Hlp : match pendingHunks (lp_hunks s) with
                | [] => snd (lp_renderChanges delta updatePositionAndHeight s)
                        = None
                | _ :: _ =>
                    snd (lp_renderChanges delta updatePositionAndHeight s)
                    <> None /\
                    lp_events
                      (fst (lp_renderChanges delta updatePositionAndHeight s))
                    = lp_events s
                end).
  { unfold lp_renderChanges.
    pose proof (updateDiffZones_nearest delta updatePositionAndHeight s) as Hs.
    destruct (pendingHunks (lp_hunks s)) as [| x xs]; [rewrite Hs; reflexivity |].
    destruct Hs as (h & _ & ->). simpl. split; [discriminate | reflexivity]. }
  assert (Hls : match pendingHunks (ls_hunks t) with
                | [] => snd (ls_renderChanges delta updatePositionAndHeight t)
                        = None
                | _ :: _ =>
                    snd (ls_renderChanges delta updatePositionAndHeight t)
                    <> None /\
                    ls_events
                      (fst (ls_renderChanges delta updatePositionAndHeight t))
                    = ls_events t
                end).
  { unfold ls_renderChanges, renderHunks, renderLoop.
    destruct (renderLoop_widget (ls_zoneLine t) (ls_hunks t)
                (ls_hunkDisplayData t, None)) as (Hsome & Hnone);
      [intros k Hk; discriminate Hk |].
    destruct (fold_left (renderStep delta (ls_zoneLine t)) (ls_hunks t)
                (ls_hunkDisplayData t, None)) as [m w].
    cbn [fst snd] in Hsome, Hnone.
    destruct w as [k |].
    - destruct (Hsome k eq_refl) as (data & Hm).
      destruct (pendingHunks (ls_hunks t)) as [| x xs].
      + assert (Hc : Some k = None) by (apply Hnone; auto). discriminate Hc.
      + simpl. rewrite Hm. simpl. split; [discriminate | reflexivity].
    - destruct (proj1 Hnone eq_refl) as (_ & ->). simpl.
      destruct (0 <? size (dropStale (ls_hunks t) m))%nat; reflexivity. }
  split; [| split; [| split]].
  - destruct (pendingHunks (lp_hunks s)); [tauto |].
    destruct Hlp as (Hne & _). split; [contradiction | discriminate].
  - destruct (pendingHunks (ls_hunks t)); [tauto |].
    destruct Hls as (Hne & _). split; [contradiction | discriminate].
  - intros Hp. destruct (pendingHunks (lp_hunks s)); [contradiction | tauto].
  - intros Hp. destruct (pendingHunks (ls_hunks t)); [contradiction | tauto].
Qed.

(** *** The hunk that the actions move on to *)

Lemma same_maps_elem {A B C : Type} (f : A -> B) (g : A -> C)
    (l1 l2 : list A) (x : A) :
  map f l1 = map f l2 -> map g l1 = map g l2 -> In x l1 ->
  exists y, In y l2 /\ f y = f x /\ g y = g x.
Proof.
  revert l2. induction l1 as [| a l1 IH]; intros [| b l2] Hf Hg Hx;
    try discriminate; [destruct Hx |].
  simpl in Hf, Hg. injection Hf as Hfa Hf. injection Hg as Hga Hg.
  destruct Hx as [<- | Hx].
  - exists b. split; [left; reflexivity | auto].
  - destruct (IH l2 Hf Hg Hx) as (y & Hy & Hfy & Hgy).
    exists y. split; [right; exact Hy | auto].
Qed.

Lemma resolveChanges_resolved (a : UserAction) (k : nat) (hs : list Hunk)
    (h' : Hunk) :
  In h' (resolveChanges retrack a k hs) -> hunk_id h' = k ->
  hunk_state h' <> Pending.
Proof.
  intros Hin Hid.
  assert (Hin' : In h' (retrack (map (resolveHunk a k) hs)))
    by (destruct a; exact Hin).
  destruct (same_maps_elem hunk_id hunk_state _ _ h'
              (retrack_ids _) (retrack_states _) Hin')
    as (y & Hy & Hyi & Hys).
  apply in_map_iff in Hy. destruct Hy as (h0 & <- & _).
  rewrite <- Hys. unfold resolveHunk in *.
  destruct (bool_decide (hunk_id h0 = k) && isPending h0) eqn:Hb; simpl in *.
  - destruct a; discriminate.
  - apply andb_false_iff in Hb. destruct Hb as [Hb | Hb].
    + apply bool_decide_eq_false_1 in Hb. congruence.
    + exact (bool_decide_eq_false_1 _ Hb).
Qed.

(** After a rendering over two or more pending hunks, [acceptHunk()] or
    [discardHunk()] resolves the nearest hunk and binds the actions to
    another hunk: the nearest of the hunks still pending, seen from where
    the zone then is.  No notification fires. *)
Theorem actions_move_to_next_hunk (a : UserAction) (s0 : LivePreview)
    (t0 : Live) :
  NoDup (map hunk_id (lp_hunks s0)) ->
  NoDup (map hunk_id (ls_hunks t0)) ->
  (2 <= length (pendingHunks (lp_hunks s0)))%nat ->
  (2 <= length (pendingHunks (ls_hunks t0)))%nat ->
  (exists h h',
     lp_actions (fst (_updateDiffZones delta updatePositionAndHeight s0))
     = NearestActions (hunk_id h) /\
     lp_hunks
       (lp_act delta updatePositionAndHeight retrack a
          (fst (_updateDiffZones delta updatePositionAndHeight s0)))
     = resolveChanges retrack a (hunk_id h) (lp_hunks s0) /\
     lp_actions
       (lp_act delta updatePositionAndHeight retrack a
          (fst (_updateDiffZones delta updatePositionAndHeight s0)))
     = NearestActions (hunk_id h') /\
     hunk_id h' <> hunk_id h /\
     isNearestIn
       (lp_zoneLine (fst (_updateDiffZones delta updatePositionAndHeight s0)))
       (pendingHunks (resolveChanges retrack a (hunk_id h) (lp_hunks s0))) h' /\
     lp_events
       (lp_act delta updatePositionAndHeight retrack a
          (fst (_updateDiffZones delta updatePositionAndHeight s0)))
     = lp_events s0) /\
  (exists h h',
     ls_actions (fst (renderHunks delta updatePositionAndHeight t0))
     = NearestActions (hunk_id h) /\
     ls_hunks
       (ls_act delta updatePositionAndHeight retrack a
          (fst (renderHunks delta updatePositionAndHeight t0)))
     = resolveChanges retrack a (hunk_id h) (ls_hunks t0) /\
     ls_actions
       (ls_act delta updatePositionAndHeight retrack a
          (fst (renderHunks delta updatePositionAndHeight t0)))
     = NearestActions (hunk_id h') /\
     hunk_id h' <> hunk_id h /\
     isNearestIn
       (ls_zoneLine (fst (renderHunks delta updatePositionAndHeight t0)))
       (pendingHunks (resolveChanges retrack a (hunk_id h) (ls_hunks t0))) h' /\
     ls_events
       (ls_act delta updatePositionAndHeight retrack a
          (fst (renderHunks delta updatePositionAndHeight t0)))
     = ls_events t0).
Proof.
  intros Hnds Hndt Hs2 Ht2. split.
  - pose proof (updateDiffZones_nearest delta updatePositionAndHeight s0) as Hs.
    destruct (pendingHunks (lp_hunks s0)) as [| x xs] eqn:Hp;
      [simpl in Hs2; lia |].
    destruct Hs as (h & Hnear & ->). rewrite <- Hp in Hnear.
    apply isNearestIn_elem, pendingHunks_elem in Hnear.
    destruct Hnear as (Hh & Hhp).
    unfold lp_act. cbn [fst lp_actions lp_hunks lp_zoneLine lp_events
                          lp_diffZonePool].
    set (s1 := mkLivePreview _ _ _ _ _).
    pose proof (resolveChanges_pending retrack retrack_states a _ h Hnds Hh Hhp)
      as Hcount.
    rewrite Hp in Hcount. simpl in Hcount, Hs2.
    pose proof (updateDiffZones_nearest delta updatePositionAndHeight s1) as Hs1.
    assert (Hhs1 : lp_hunks s1 = resolveChanges retrack a (hunk_id h) (lp_hunks s0))
      by reflexivity.
    rewrite Hhs1 in Hs1.
    destruct (pendingHunks (resolveChanges retrack a (hunk_id h) (lp_hunks s0)))
      as [| y ys] eqn:Hp1; [simpl in Hcount; lia |].
    destruct Hs1 as (h' & Hnear' & ->). rewrite <- Hp1 in Hnear'.
    exists h, h'.
    cbn [fst lp_actions lp_hunks lp_events]. rewrite ?Hhs1.
    split; [reflexivity |]. split; [reflexivity |]. split; [reflexivity |].
    split; [| split; [exact Hnear' | reflexivity]].
    intros Hid.
    apply isNearestIn_elem, pendingHunks_elem in Hnear'.
    destruct Hnear' as (Hin' & Hst').
    exact (resolveChanges_resolved a _ _ h' Hin' Hid Hst').
  - pose proof (renderHunks_nearest delta updatePositionAndHeight t0 Hndt) as Ht.
    destruct (pendingHunks (ls_hunks t0)) as [| x xs] eqn:Hp;
      [simpl in Ht2; lia |].
    destruct Ht as (h & Hnear & Hhs & Hact & Hev & _). rewrite <- Hp in Hnear.
    apply isNearestIn_elem, pendingHunks_elem in Hnear.
    destruct Hnear as (Hh & Hhp).
    unfold ls_act. rewrite Hact, Hhs, Hev.
    set (t1 := mkLive _ _ _ _ _).
    pose proof (resolveChanges_pending retrack retrack_states a _ h Hndt Hh Hhp)
      as Hcount.
    rewrite Hp in Hcount. simpl in Hcount, Ht2.
    assert (Hnd1 : NoDup (map hunk_id (ls_hunks t1))).
    { unfold t1. simpl. rewrite (resolveChanges_ids retrack retrack_ids).
      exact Hndt. }
    pose proof (renderHunks_nearest delta updatePositionAndHeight t1 Hnd1) as Ht1.
    assert (Hhs1 : ls_hunks t1 = resolveChanges retrack a (hunk_id h) (ls_hunks t0))
      by reflexivity.
    rewrite Hhs1 in Ht1.
    destruct (pendingHunks (resolveChanges retrack a (hunk_id h) (ls_hunks t0)))
      as [| y ys] eqn:Hp1; [simpl in Hcount; lia |].
    destruct Ht1 as (h' & Hnear' & Hhs' & Hact' & Hev' & _).
    rewrite <- Hp1 in Hnear'. exists h, h'.
    rewrite Hhs', Hact', Hev'.
    split; [reflexivity |]. split; [reflexivity |]. split; [reflexivity |].
    split; [| split; [exact Hnear' | reflexivity]].
    intros Hid.
    apply isNearestIn_elem, pendingHunks_elem in Hnear'.
    destruct Hnear' as (Hin' & Hst').
    exact (resolveChanges_resolved a _ _ h' Hin' Hid Hst').
Qed.


(** *** Which notification ends the session *)

Lemma existsb_accepted_states (hs : list Hunk) :
  existsb isAccepted hs = existsb acceptedState (map hunk_state hs).
Proof.
  induction hs as [| x xs IH]; [reflexivity |]. simpl. rewrite IH. reflexivity.
Qed.

Lemma terminalEvent_retrack (hs : list Hunk) :
  terminalEvent (retrack hs) = terminalEvent hs.
Proof.
  unfold terminalEvent. rewrite !existsb_accepted_states, retrack_states.
  reflexivity.
Qed.

Lemma resolveHunk_accepted (a : UserAction) (hs : list Hunk) (h : Hunk) :
  NoDup (map hunk_id hs) -> In h hs -> hunk_state h = Pending ->
  existsb isAccepted (map (resolveHunk a (hunk_id h)) hs)
  = existsb isAccepted hs || isAcceptHunk a.
Proof.
  induction hs as [| x xs IH]; intros Hnd Hin Hst; [destruct Hin |].
  simpl in Hnd. apply NoDup_cons in Hnd. destruct Hnd as (Hx & Hnd).
  rewrite list_elem_of_In in Hx. destruct Hin as [-> | Hin].
  - simpl. rewrite resolveHunk_absent by exact Hx.
    assert (Hp : isPending h = true) by (apply bool_decide_eq_true_2; exact Hst).
    unfold resolveHunk. rewrite Hp, bool_decide_eq_true_2 by reflexivity.
    unfold isAccepted. simpl. rewrite Hst.
    destruct a; simpl; destruct (existsb _ xs); reflexivity.
  - simpl. unfold resolveHunk at 1.
    rewrite bool_decide_eq_false_2.
    + simpl. rewrite (IH Hnd Hin Hst). apply orb_assoc.
    + intros Heq. apply Hx. rewrite Heq. apply in_map. exact Hin.
Qed.

Lemma resolveChanges_terminal (a : UserAction) (hs : list Hunk) (h : Hunk) :
  NoDup (map hunk_id hs) -> In h hs -> hunk_state h = Pending ->
  terminalEvent (resolveChanges retrack a (hunk_id h) hs) = DidAccept
  <-> terminalEvent hs = DidAccept \/ a = AcceptHunk.
Proof.
  intros Hnd Hin Hst.
  assert (Heq : terminalEvent (resolveChanges retrack a (hunk_id h) hs)
                = terminalEvent (map (resolveHunk a (hunk_id h)) hs))
    by (destruct a; apply terminalEvent_retrack).
  rewrite Heq. unfold terminalEvent.
  rewrite (resolveHunk_accepted a hs h Hnd Hin Hst).
  destruct (existsb isAccepted hs); destruct a; simpl;
    intuition discriminate.
Qed.

Lemma updateDiffZones_hunks (s : LivePreview) :
  lp_hunks (fst (_updateDiffZones delta updatePositionAndHeight s))
  = lp_hunks s.
Proof.
  pose proof (updateDiffZones_nearest delta updatePositionAndHeight s) as Hs.
  destruct (pendingHunks (lp_hunks s)) as [| x xs]; [rewrite Hs; reflexivity |].
  destruct Hs as (h & _ & ->). reflexivity.
Qed.

Lemma renderHunks_hunks (t : Live) :
  ls_hunks (fst (renderHunks delta updatePositionAndHeight t)) = ls_hunks t.
Proof.
  unfold renderHunks.
  destruct (renderLoop delta (ls_zoneLine t) (ls_hunkDisplayData t)
              (ls_hunks t)) as [m w].
  destruct (w ≫= _) as [[k data] |]; [reflexivity |].
  destruct (0 <? size _)%nat; reflexivity.
Qed.

Lemma lp_act_hunks (a : UserAction) (s : LivePreview) (n : nat) :
  lpReady (S n) s ->
  exists h,
    In h (lp_hunks s) /\ hunk_state h = Pending /\
    lp_hunks (lp_act delta updatePositionAndHeight retrack a s)
    = resolveChanges retrack a (hunk_id h) (lp_hunks s).
Proof.
  intros (_ & _ & Hact).
  destruct (Hact (Nat.neq_succ_0 n)) as (h & Hin & Hst & Hb).
  exists h. split; [exact Hin |]. split; [exact Hst |].
  unfold lp_act. rewrite Hb, updateDiffZones_hunks. reflexivity.
Qed.

Lemma ls_act_hunks (a : UserAction) (t : Live) (n : nat) :
  lsReady (S n) t ->
  exists h,
    In h (ls_hunks t) /\ hunk_state h = Pending /\
    ls_hunks (ls_act delta updatePositionAndHeight retrack a t)
    = resolveChanges retrack a (hunk_id h) (ls_hunks t).
Proof.
  intros (_ & _ & Hact).
  destruct (Hact (Nat.neq_succ_0 n)) as (h & Hin & Hst & Hb).
  exists h. split; [exact Hin |]. split; [exact Hst |].
  unfold ls_act. rewrite Hb, renderHunks_hunks. reflexivity.
Qed.

Lemma lp_run_accepted (acts : list UserAction) (s : LivePreview) (n : nat) :
  lpReady (length acts + n) s ->
  terminalEvent (lp_hunks (lp_run delta updatePositionAndHeight retrack acts s))
  = DidAccept
  <-> terminalEvent (lp_hunks s) = DidAccept \/ In AcceptHunk acts.
Proof.
  revert s. induction acts as [| a acts IH]; intros s Hs.
  - simpl. tauto.
  - simpl length in Hs. simpl Nat.add in Hs.
    destruct (lp_act_ready delta updatePositionAndHeight retrack retrack_ids
                retrack_states a s _ Hs) as (Hr & _).
    destruct (lp_act_hunks a s _ Hs) as (h & Hin & Hst & Hh).
    destruct Hs as (Hnd & _).
    simpl lp_run. unfold lp_run in IH. rewrite (IH _ Hr). rewrite Hh.
    rewrite (resolveChanges_terminal a _ h Hnd Hin Hst). simpl. intuition.
Qed.

Lemma ls_run_accepted (acts : list UserAction) (t : Live) (n : nat) :
  lsReady (length acts + n) t ->
  terminalEvent (ls_hunks (ls_run delta updatePositionAndHeight retrack acts t))
  = DidAccept
  <-> terminalEvent (ls_hunks t) = DidAccept \/ In AcceptHunk acts.
Proof.
  revert t. induction acts as [| a acts IH]; intros t Ht.
  - simpl. tauto.
  - simpl length in Ht. simpl Nat.add in Ht.
    destruct (ls_act_ready delta updatePositionAndHeight retrack retrack_ids
                retrack_states a t _ Ht) as (Hr & _).
    destruct (ls_act_hunks a t _ Ht) as (h & Hin & Hst & Hh).
    destruct Ht as (Hnd & _).
    simpl ls_run. unfold ls_run in IH. rewrite (IH _ Hr). rewrite Hh.
    rewrite (resolveChanges_terminal a _ h Hnd Hin Hst). simpl. intuition.
Qed.

(** When a store of distinct hunks with a pending hunk is rendered and
    every pending hunk is then resolved by an action, the one notification
    that fires is [onDidAccept] exactly when one of the actions was
    [acceptHunk()] or a hunk was accepted beforehand, and [onDidDiscard]
    otherwise. *)
Theorem accepted_iff_a_hunk_was_accepted (hs : list Hunk) (zone : Z)
    (acts : list UserAction) :
  NoDup (map hunk_id hs) ->
  pendingHunks hs <> [] ->
  length acts = length (pendingHunks hs) ->
  (lp_events
     (lp_run delta updatePositionAndHeight retrack acts
        (fst (lp_renderChanges delta updatePositionAndHeight (lp_new hs zone))))
   = [DidAccept]
   <-> (exists h, In h hs /\ hunk_state h = Accepted) \/ In AcceptHunk acts) /\
  (ls_events
     (ls_run delta updatePositionAndHeight retrack acts
        (fst (ls_renderChanges delta updatePositionAndHeight (ls_new hs zone))))
   = [DidAccept]
   <-> (exists h, In h hs /\ hunk_state h = Accepted) \/ In AcceptHunk acts).
Proof.
  intros Hnd Hne Hlen.
  assert (Hacts : acts <> []).
  { destruct acts; [| discriminate].
    destruct (pendingHunks hs); [contradiction | discriminate]. }
  rewrite <- terminalEvent_accept. split.
  - unfold lp_renderChanges.
    destruct (updateDiffZones_ready delta updatePositionAndHeight
                (lp_new hs zone) (length acts) Hnd (eq_sym Hlen))
      as (Hr & Hh & He).
    destruct (lp_run_exhausts delta updatePositionAndHeight retrack
                retrack_ids retrack_states acts _ Hacts Hr) as (_ & Hev & _).
    rewrite Hev, He.
    destruct (length acts) eqn:Hl;
      [destruct acts; [contradiction | discriminate] |].
    rewrite <- Hl in Hr. rewrite <- (Nat.add_0_r (length acts)) in Hr.
    pose proof (lp_run_accepted acts _ 0%nat Hr) as Hacc.
    rewrite Hh in Hacc. cbn [lp_hunks lp_new] in Hacc. rewrite <- Hacc. simpl.
    split; [intros Heq; injection Heq as ->; reflexivity | intros ->; reflexivity].
  - rewrite ls_renderChanges_fst.
    destruct (renderHunks_ready delta updatePositionAndHeight
                (ls_new hs zone) (length acts) Hnd (eq_sym Hlen))
      as (Hr & Hh & He).
    destruct (ls_run_exhausts delta updatePositionAndHeight retrack
                retrack_ids retrack_states acts _ Hacts Hr) as (_ & Hev & _).
    rewrite Hev, He.
    destruct (length acts) eqn:Hl;
      [destruct acts; [contradiction | discriminate] |].
    rewrite <- Hl in Hr. rewrite <- (Nat.add_0_r (length acts)) in Hr.
    pose proof (ls_run_accepted acts _ 0%nat Hr) as Hacc.
    rewrite Hh in Hacc. cbn [ls_hunks ls_new] in Hacc. rewrite <- Hacc. simpl.
    split; [intros Heq; injection Heq as ->; reflexivity | intros ->; reflexivity].
Qed.


(** *** The pool of diff zones *)

Lemma resolveHunk_pending_le (a : UserAction) (k : nat) (hs : list Hunk) :
  (length (pendingHunks (map (resolveHunk a k) hs))
   <= length (pendingHunks hs))%nat.
Proof.
  induction hs as [| x xs IH]; [reflexivity |]. simpl.
  unfold resolveHunk at 1.
  destruct (bool_decide (hunk_id x = k) && isPending x) eqn:Hb.
  - apply andb_prop in Hb. destruct Hb as (_ & Hp). rewrite Hp.
    unfold isPending at 1. simpl.
    rewrite bool_decide_eq_false_2 by (destruct a; discriminate).
    simpl. lia.
  - destruct (isPending x); simpl; lia.
Qed.

Lemma resolveChanges_pending_le (a : UserAction) (k : nat) (hs : list Hunk) :
  (length (pendingHunks (resolveChanges retrack a k hs))
   <= length (pendingHunks hs))%nat.
Proof.
  pose proof (resolveHunk_pending_le a k hs) as Hle.
  destruct a; unfold resolveChanges, acceptChanges, discardChanges;
    rewrite (retrack_pending retrack retrack_states); exact Hle.
Qed.

Lemma updateDiffZones_pool (s : LivePreview) :
  lp_diffZonePool (fst (_updateDiffZones delta updatePositionAndHeight s))
  = Nat.max (lp_diffZonePool s) (length (pendingHunks (lp_hunks s))).
Proof.
  pose proof (updateDiffZones_nearest delta updatePositionAndHeight s) as Hs.
  destruct (pendingHunks (lp_hunks s)) as [| x xs];
    [rewrite Hs; simpl; lia |].
  destruct Hs as (h & _ & ->). reflexivity.
Qed.

Lemma lp_act_pool (a : UserAction) (s : LivePreview) :
  (length (pendingHunks (lp_hunks s)) <= lp_diffZonePool s)%nat ->
  lp_diffZonePool (lp_act delta updatePositionAndHeight retrack a s)
  = lp_diffZonePool s /\
  (length (pendingHunks
             (lp_hunks (lp_act delta updatePositionAndHeight retrack a s)))
   <= lp_diffZonePool s)%nat.
Proof.
  intros Hle. unfold lp_act.
  destruct (lp_actions s) as [| | k]; [simpl; auto | auto |].
  rewrite updateDiffZones_pool, updateDiffZones_hunks. simpl.
  pose proof (resolveChanges_pending_le a k (lp_hunks s)). lia.
Qed.

(** [LivePreviewStrategy] never disposes of a diff zone while it renders,
    and after a rendering the pool holds at least one zone for each pending
    hunk; from then on [acceptHunk()] and [discardHunk()] create no zone,
    however many of them follow. *)
Theorem diff_zones_are_reused (s : LivePreview) (acts : list UserAction) :
  (lp_diffZonePool s
   <= lp_diffZonePool (fst (_updateDiffZones delta updatePositionAndHeight s)))%nat /\
  (length (pendingHunks (lp_hunks s))
   <= lp_diffZonePool (fst (_updateDiffZones delta updatePositionAndHeight s)))%nat /\
  lp_diffZonePool
    (lp_run delta updatePositionAndHeight retrack acts
       (fst (_updateDiffZones delta updatePositionAndHeight s)))
  = lp_diffZonePool (fst (_updateDiffZones delta updatePositionAndHeight s)).
Proof.
  rewrite updateDiffZones_pool. split; [lia |]. split; [lia |].
  assert (Hinv : (length (pendingHunks
                            (lp_hunks
                               (fst (_updateDiffZones delta
                                       updatePositionAndHeight s))))
                  <= lp_diffZonePool
                       (fst (_updateDiffZones delta updatePositionAndHeight s)))%nat).
  { rewrite updateDiffZones_pool, updateDiffZones_hunks. lia. }
  rewrite <- updateDiffZones_pool.
  revert Hinv.
  generalize (fst (_updateDiffZones delta updatePositionAndHeight s)).
  induction acts as [| a acts IH]; intros s' Hinv; [reflexivity |].
  change (lp_run delta updatePositionAndHeight retrack (a :: acts) s')
    with (lp_run delta updatePositionAndHeight retrack acts
            (lp_act delta updatePositionAndHeight retrack a s')).
  destruct (lp_act_pool a s' Hinv) as (Hpool & Hle).
  rewrite IH by (rewrite Hpool; exact Hle). exact Hpool.
Qed.

(** *** The display map of [LiveStrategy] *)

Lemma renderStep_dom (zone : Z) (m : gmap nat HunkDisplayData)
    (w : option nat) (x : Hunk) :
  dom (fst (renderStep delta zone (m, w) x)) = {[hunk_id x]} ∪ dom m.
Proof.
  unfold renderStep. cbn [fst].
  destruct (m !! hunk_id x) as [data |]; [destruct (negb (isPending x)) |];
    apply dom_insert_L.
Qed.

Lemma renderLoop_dom (zone : Z) (hs : list Hunk)
    (acc : gmap nat HunkDisplayData * option nat) :
  dom (fst (fold_left (renderStep delta zone) hs acc))
  = list_to_set (map hunk_id hs) ∪ dom (fst acc).
Proof.
  revert acc. induction hs as [| x xs IH]; intros [m w].
  - cbn [fold_left fst map]. rewrite list_to_set_nil.
    symmetry. apply (left_id_L ∅ (∪)).
  - cbn [fold_left map]. rewrite IH, renderStep_dom, list_to_set_cons.
    cbn [fst]. rewrite (assoc_L (∪)).
    rewrite (comm_L (∪) (list_to_set (map hunk_id xs)) {[hunk_id x]}).
    reflexivity.
Qed.

Lemma dropStale_dom (hs : list Hunk) (m m0 : gmap nat HunkDisplayData) :
  dom m = list_to_set (map hunk_id hs) ∪ dom m0 ->
  dom (dropStale hs m) = list_to_set (map hunk_id hs).
Proof.
  intros Hm. apply set_eq. intros k. unfold dropStale.
  rewrite elem_of_dom. unfold is_Some.
  setoid_rewrite map_lookup_filter_Some. simpl.
  rewrite elem_of_list_to_set. split.
  - intros (data & _ & Hk). exact Hk.
  - intros Hk.
    assert (Hin : k ∈ dom m)
      by (rewrite Hm; apply elem_of_union_l, elem_of_list_to_set, Hk).
    apply elem_of_dom in Hin. destruct Hin as (data & Hd). eauto.
Qed.

Lemma renderLoop_dropStale_dom (t : Live) :
  dom (dropStale (ls_hunks t)
         (fst (renderLoop delta (ls_zoneLine t) (ls_hunkDisplayData t)
                 (ls_hunks t))))
  = list_to_set (map hunk_id (ls_hunks t)).
Proof.
  apply (dropStale_dom _ _ (ls_hunkDisplayData t)).
  apply (renderLoop_dom (ls_zoneLine t) (ls_hunks t)
           (ls_hunkDisplayData t, None)).
Qed.

(** After [renderHunks] the display map has an entry for every hunk of the
    store and for nothing else: entries of hunks that left the store are
    deleted, whatever the map held before. *)
Theorem display_map_follows_store (t : Live) :
  dom (ls_hunkDisplayData (fst (renderHunks delta updatePositionAndHeight t)))
  = list_to_set (map hunk_id (ls_hunks t)).
Proof.
  pose proof (renderLoop_dropStale_dom t) as Hdom.
  unfold renderHunks.
  destruct (renderLoop delta (ls_zoneLine t) (ls_hunkDisplayData t)
              (ls_hunks t)) as [m w].
  cbn [fst] in Hdom.
  destruct (w ≫= _) as [[k data] |]; [exact Hdom |].
  destruct (0 <? size _)%nat; exact Hdom.
Qed.

Lemma renderStep_entry (zone : Z) (m : gmap nat HunkDisplayData)
    (w : option nat) (x : Hunk) :
  fst (renderStep delta zone (m, w) x) !! hunk_id x
  = Some match m !! hunk_id x with
         | None =>
             mkHunkDisplayData true (distance zone (hunk_rangeN x))
               (delta (getStartPosition (hunk_rangeN x)) (-1))
         | Some data =>
             if isPending x
             then mkHunkDisplayData (dd_decorated data)
                    (distance zone (hunk_rangeN x))
                    (delta (getStartPosition (hunk_rangeN x)) (-1))
             else dd_remove data
         end.
Proof.
  unfold renderStep. cbn [fst].
  destruct (m !! hunk_id x) as [data |]; [destruct (isPending x) |];
    simpl; apply lookup_insert_eq.
Qed.

Lemma renderLoop_other (zone : Z) (hs : list Hunk)
    (acc : gmap nat HunkDisplayData * option nat) (k : nat) :
  ~ In k (map hunk_id hs) ->
  fst (fold_left (renderStep delta zone) hs acc) !! k = fst acc !! k.
Proof.
  revert acc. induction hs as [| x xs IH]; intros [m w] Hk; [reflexivity |].
  cbn [fold_left]. simpl in Hk. rewrite IH by tauto.
  apply renderStep_other. intros ->. tauto.
Qed.

(** What [renderHunks] leaves in the display map for a hunk of a store of
    distinct hunks.  A hunk seen for the first time gets its decorations,
    whatever its state; a hunk seen before keeps its entry, with the
    decorations removed once it is no longer pending, and with distance and
    position computed anew while it is. *)
Theorem display_entry_after_render (t : Live) (h : Hunk) :
  NoDup (map hunk_id (ls_hunks t)) ->
  In h (ls_hunks t) ->
  ls_hunkDisplayData (fst (renderHunks delta updatePositionAndHeight t))
    !! hunk_id h
  = Some match ls_hunkDisplayData t !! hunk_id h with
         | None =>
             mkHunkDisplayData true
               (distance (ls_zoneLine t) (hunk_rangeN h))
               (delta (getStartPosition (hunk_rangeN h)) (-1))
         | Some data =>
             if isPending h
             then mkHunkDisplayData (dd_decorated data)
                    (distance (ls_zoneLine t) (hunk_rangeN h))
                    (delta (getStartPosition (hunk_rangeN h)) (-1))
             else dd_remove data
         end.
Proof.
  intros Hnd Hin.
  assert (Hloop : fst (renderLoop delta (ls_zoneLine t) (ls_hunkDisplayData t)
                         (ls_hunks t)) !! hunk_id h
                  = Some match ls_hunkDisplayData t !! hunk_id h with
                         | None =>
                             mkHunkDisplayData true
                               (distance (ls_zoneLine t) (hunk_rangeN h))
                               (delta (getStartPosition (hunk_rangeN h)) (-1))
                         | Some data =>
                             if isPending h
                             then mkHunkDisplayData (dd_decorated data)
                                    (distance (ls_zoneLine t) (hunk_rangeN h))
                                    (delta (getStartPosition (hunk_rangeN h)) (-1))
                             else dd_remove data
                         end).
  { unfold renderLoop. destruct (in_split _ _ Hin) as (pre & post & Hsplit).
    rewrite Hsplit in Hnd |- *. rewrite map_app in Hnd. simpl in Hnd.
    apply NoDup_app in Hnd. destruct Hnd as (_ & Hpre & Hpost).
    apply NoDup_cons in Hpost. destruct Hpost as (Hpost & _).
    rewrite fold_left_app. cbn [fold_left].
    rewrite renderLoop_other by (rewrite <- list_elem_of_In; exact Hpost).
    destruct (fold_left (renderStep delta (ls_zoneLine t)) pre
                (ls_hunkDisplayData t, None)) as [m w] eqn:Hfold.
    rewrite renderStep_entry.
    replace (m !! hunk_id h) with (ls_hunkDisplayData t !! hunk_id h);
      [reflexivity |].
    change m with (fst (m, w)). rewrite <- Hfold.
    symmetry. apply (renderLoop_other (ls_zoneLine t) pre
                       (ls_hunkDisplayData t, None)).
    intros Hc. apply (Hpre (hunk_id h)).
    - apply list_elem_of_In. exact Hc.
    - left. }
  unfold renderHunks.
  destruct (renderLoop delta (ls_zoneLine t) (ls_hunkDisplayData t)
              (ls_hunks t)) as [m w].
  cbn [fst] in Hloop.
  assert (Hdrop : dropStale (ls_hunks t) m !! hunk_id h = m !! hunk_id h)
    by (apply dropStale_lookup; exact Hin).
  destruct (w ≫= _) as [[k data] |]; [simpl; congruence |].
  destruct (0 <? size _)%nat; simpl; congruence.
Qed.

(** *** [cancel], and the rendering after it *)

Lemma discardAll_no_pending (hs : list Hunk) :
  pendingHunks (discardAll retrack hs) = [].
Proof.
  apply length_zero_iff_nil. rewrite pendingHunks_length.
  unfold discardAll. rewrite retrack_states, map_map.
  induction hs as [| x xs IH]; [reflexivity |]. simpl.
  unfold discardPending at 1, isPending.
  destruct (hunk_state x) eqn:Hx; simpl; rewrite ?Hx; exact IH.
Qed.

Lemma discardAll_terminal (hs : list Hunk) :
  terminalEvent (discardAll retrack hs) = terminalEvent hs.
Proof.
  unfold discardAll. rewrite terminalEvent_retrack. unfold terminalEvent.
  replace (existsb isAccepted (map discardPending hs))
    with (existsb isAccepted hs); [reflexivity |].
  induction hs as [| x xs IH]; [reflexivity |]. simpl. rewrite IH.
  f_equal. unfold discardPending, isPending, isAccepted.
  destruct (hunk_state x) eqn:Hx; simpl; rewrite ?Hx; reflexivity.
Qed.

Lemma renderHunks_no_pending (t : Live) :
  pendingHunks (ls_hunks t) = [] ->
  ls_events (fst (renderHunks delta updatePositionAndHeight t))
  = ls_events t ++
    (if bool_decide (ls_hunks t = []) then []
     else [terminalEvent (ls_hunks t)]).
Proof.
  intros Hp. pose proof (renderLoop_dropStale_dom t) as Hdom.
  revert Hdom. unfold renderHunks, renderLoop.
  destruct (renderLoop_widget (ls_zoneLine t) (ls_hunks t)
              (ls_hunkDisplayData t, None)) as (_ & Hnone);
    [intros k Hk; discriminate Hk |].
  destruct (fold_left (renderStep delta (ls_zoneLine t)) (ls_hunks t)
              (ls_hunkDisplayData t, None)) as [m w].
  cbn [snd] in Hnone. rewrite (proj2 Hnone (conj eq_refl Hp)). simpl.
  destruct (ls_hunks t) as [| x xs] eqn:Hhs.
  - destruct (0 <? size (dropStale [] m))%nat eqn:Hsz; cbn [fst ls_events
      ls_hunkDisplayData ls_fire map bool_decide decide_rel]; intros Hdom;
      [| rewrite app_nil_r; reflexivity].
    exfalso. apply Nat.ltb_lt in Hsz. rewrite list_to_set_nil in Hdom.
    apply dom_empty_inv_L in Hdom. rewrite Hdom, map_size_empty in Hsz. lia.
  - destruct (0 <? size (dropStale (x :: xs) m))%nat eqn:Hsz; cbn [fst
      ls_events ls_hunkDisplayData ls_fire map]; intros Hdom;
      [reflexivity |].
    exfalso. apply Nat.ltb_ge in Hsz.
    assert (Hm : dropStale (x :: xs) m = ∅)
      by (apply map_size_empty_iff; lia).
    rewrite Hm, dom_empty_L, list_to_set_cons in Hdom.
    assert (Hx : hunk_id x ∈ (∅ : gset nat))
      by (rewrite Hdom; apply elem_of_union_l, elem_of_singleton; reflexivity).
    exact (not_elem_of_empty _ Hx).
Qed.

(** After [cancel()] no hunk is pending, a second [cancel()] changes no
    state, and the next rendering returns no position and fires one
    notification: [onDidAccept] if a hunk had been accepted before the
    cancel, [onDidDiscard] if none had.  [LiveStrategy] has removed the
    decorations of every entry of its display map by then, and fires
    nothing when the store is empty. *)
Theorem render_after_cancel (s : LivePreview) (t : Live) :
  (pendingHunks (lp_hunks (lp_cancel retrack s)) = [] /\
   map hunk_state (lp_hunks (lp_cancel retrack (lp_cancel retrack s)))
   = map hunk_state (lp_hunks (lp_cancel retrack s)) /\
   snd (_updateDiffZones delta updatePositionAndHeight (lp_cancel retrack s))
   = None /\
   lp_events
     (fst (_updateDiffZones delta updatePositionAndHeight (lp_cancel retrack s)))
   = lp_events s ++ [terminalEvent (lp_hunks s)]) /\
  (pendingHunks (ls_hunks (ls_cancel retrack t)) = [] /\
   map hunk_state (ls_hunks (ls_cancel retrack (ls_cancel retrack t)))
   = map hunk_state (ls_hunks (ls_cancel retrack t)) /\
   (forall k data,
      ls_hunkDisplayData (ls_cancel retrack t) !! k = Some data ->
      dd_decorated data = false) /\
   ls_events
     (fst (renderHunks delta updatePositionAndHeight (ls_cancel retrack t)))
   = ls_events t ++
     (if bool_decide (ls_hunks t = []) then []
      else [terminalEvent (ls_hunks t)])).
Proof.
  assert (Hagain : forall hs,
            map hunk_state (discardAll retrack (discardAll retrack hs))
            = map hunk_state (discardAll retrack hs)).
  { intros hs. unfold discardAll at 1. rewrite retrack_states, map_map.
    pose proof (discardAll_no_pending hs) as Hp.
    induction (discardAll retrack hs) as [| x xs IH]; [reflexivity |].
    unfold pendingHunks in Hp. simpl in Hp. simpl.
    destruct (isPending x) eqn:Hx; [discriminate |].
    unfold discardPending at 1. rewrite Hx. f_equal. apply IH. exact Hp. }
  split.
  - split; [apply discardAll_no_pending |]. split; [apply Hagain |].
    pose proof (updateDiffZones_nearest delta updatePositionAndHeight
                  (lp_cancel retrack s)) as Hs.
    replace (pendingHunks (lp_hunks (lp_cancel retrack s))) with (@nil Hunk)
      in Hs by (symmetry; apply discardAll_no_pending).
    rewrite Hs. simpl. rewrite discardAll_terminal. auto.
  - split; [apply discardAll_no_pending |]. split; [apply Hagain |]. split.
    + intros k data Hk. simpl in Hk. rewrite lookup_fmap in Hk.
      destruct (ls_hunkDisplayData t !! k) as [d |]; [| discriminate].
      injection Hk as <-. reflexivity.
    + rewrite renderHunks_no_pending by apply discardAll_no_pending.
      cbn [ls_cancel ls_events ls_hunks _resetDiff].
      rewrite discardAll_terminal.
      assert (Hnil : discardAll retrack (ls_hunks t) = [] <-> ls_hunks t = []).
      { split; intros He.
        - pose proof (retrack_ids (map discardPending (ls_hunks t))) as Hi.
          unfold discardAll in He. rewrite He in Hi.
          destruct (ls_hunks t); [reflexivity | discriminate].
        - rewrite He. unfold discardAll. simpl.
          pose proof (retrack_ids []) as Hi.
          destruct (retrack []); [reflexivity | discriminate]. }
      destruct (bool_decide_reflect (ls_hunks t = [])) as [He | Hne].
      * rewrite bool_decide_eq_true_2 by (apply Hnil; exact He). reflexivity.
      * rewrite bool_decide_eq_false_2 by (rewrite Hnil; exact Hne).
        reflexivity.
Qed.


End SelectionAgain.

(** ** Undo stops over a whole session *)

Section SessionFacts.

Variable countWords : string -> Z.

Lemma doCalls_count (kind : StrategyKind) (calls : list Call)
    (s : EditModeStrategy) :
  _editCount (fst (doCalls countWords kind s calls))
  = _editCount s + Z.of_nat (length calls).
Proof.
  revert s. induction calls as [| c calls IH]; intros s; [simpl; lia |].
  cbn [doCalls].
  destruct (doCall_effects countWords kind s c) as (_ & _ & _ & Hcount).
  destruct (doCall countWords kind s c) as [s1 effects1]. cbn [fst] in Hcount.
  specialize (IH s1).
  destruct (doCalls countWords kind s1 calls) as [s2 effects2].
  cbn [fst] in IH |- *. rewrite IH, Hcount. simpl length. lia.
Qed.

(** Over a session of a strategy, that is any number of [makeChanges] and
    [makeProgressiveChanges] calls followed by [apply()], [_editCount]
    counts the calls, and the editor sees no undo stop when no call was
    made; otherwise it sees one before everything else and, with the two
    live strategies, one more after everything else, and none in
    between. *)
Theorem undo_stops_frame_the_session (kind : StrategyKind)
    (calls : list Call) :
  _editCount (fst (doCalls countWords kind newStrategy calls))
  = Z.of_nat (length calls) /\
  match calls with
  | [] =>
      snd (doCalls countWords kind newStrategy calls) ++
      applyEffectsOf kind (fst (doCalls countWords kind newStrategy calls))
      = []
  | _ :: _ =>
      exists middle,
        existsb isPushUndoStop middle = false /\
        snd (doCalls countWords kind newStrategy calls) ++
        applyEffectsOf kind (fst (doCalls countWords kind newStrategy calls))
        = PushUndoStop :: middle ++
          match kind with
          | PreviewKind => []
          | LivePreviewKind | LiveKind => [PushUndoStop]
          end
  end.
Proof.
  split; [rewrite doCalls_count; reflexivity |].
  destruct calls as [| c calls]; [destruct kind; reflexivity |].
  pose proof (doCalls_count kind (c :: calls) newStrategy) as Hn.
  revert Hn. cbn [doCalls].
  destruct (doCall_effects countWords kind newStrategy c)
    as (rest & Hrest & Heff & Hcount).
  destruct (doCall countWords kind newStrategy c) as [s1 effects1].
  cbn [fst snd] in Heff, Hcount.
  pose proof (doCalls_later countWords kind calls s1) as Hlater.
  destruct (doCalls countWords kind s1 calls) as [s2 effects2].
  cbn [fst snd] in Hlater |- *. intros Hn.
  exists (rest ++ effects2). split.
  - rewrite existsb_app, Hrest, Hlater; [reflexivity |].
    rewrite Hcount. reflexivity.
  - rewrite Heff. simpl. rewrite <- !app_assoc. do 2 f_equal.
    unfold applyEffectsOf, applyEffects.
    replace (0 <? _editCount s2) with true
      by (symmetry; apply Z.ltb_lt; rewrite Hn; simpl length;
          cbn [newStrategy _editCount]; lia).
    destruct kind; reflexivity.
Qed.

End SessionFacts.

(** ** [PreviewStrategy.apply] on the snapshot *)

Section ApplyFacts.

Variable retrack : list Hunk -> list Hunk.
Variable moveChanges : Hunk -> string -> string -> string.

Hypothesis retrack_ids : forall hs, map hunk_id (retrack hs) = map hunk_id hs.
Hypothesis retrack_states :
  forall hs, map hunk_state (retrack hs) = map hunk_state hs.

Lemma signature_combine (hs : list Hunk) :
  map signature hs = combine (map hunk_id hs) (map hunk_state hs).
Proof.
  induction hs as [| x xs IH]; [reflexivity |]. simpl. rewrite IH. reflexivity.
Qed.

Lemma signature_retrack (hs : list Hunk) :
  map signature (retrack hs) = map signature hs.
Proof. rewrite !signature_combine, retrack_ids, retrack_states. reflexivity. Qed.

Lemma signature_acceptChanges (k : nat) (hs : list Hunk) :
  map signature (acceptChanges retrack k hs)
  = map (acceptSignature k) (map signature hs).
Proof.
  unfold acceptChanges. rewrite signature_retrack, !map_map.
  apply map_ext. intros h.
  unfold resolveHunk, acceptSignature, signature, isPending, pendingState.
  simpl. destruct (bool_decide (hunk_id h = k) && _); reflexivity.
Qed.

Lemma signature_acceptAll (ks : list nat) (hs : list Hunk) :
  map signature (fold_left (fun hs k => acceptChanges retrack k hs) ks hs)
  = map (fun p => fold_left (fun p k => acceptSignature k p) ks p)
      (map signature hs).
Proof.
  revert hs. induction ks as [| k ks IH]; intros hs; simpl.
  - rewrite map_id. reflexivity.
  - rewrite IH, signature_acceptChanges, map_map. reflexivity.
Qed.

Lemma acceptSignature_all (ks : list nat) (i : nat) (st : HunkState) :
  fold_left (fun p k => acceptSignature k p) ks (i, st)
  = (i, if bool_decide (i ∈ ks) then acceptedOf st else st).
Proof.
  revert st. induction ks as [| k ks IH]; intros st; cbn [fold_left].
  - rewrite bool_decide_eq_false_2 by apply not_elem_of_nil. reflexivity.
  - unfold acceptSignature at 2. cbn [fst snd].
    destruct (decide (i = k)) as [-> | Hne].
    + rewrite (bool_decide_eq_true_2 (k = k)) by reflexivity.
      rewrite (bool_decide_eq_true_2 (k ∈ k :: ks)) by apply list_elem_of_here.
      destruct st; simpl; rewrite IH; simpl;
        destruct (bool_decide (k ∈ ks)); reflexivity.
    + rewrite (bool_decide_eq_false_2 (i = k)) by exact Hne. simpl.
      rewrite IH. f_equal.
      destruct (decide (i ∈ ks)) as [Hin | Hnin].
      * rewrite !bool_decide_eq_true_2;
          [reflexivity | apply list_elem_of_further; exact Hin | exact Hin].
      * rewrite !bool_decide_eq_false_2; [reflexivity | | exact Hnin].
        intros Hc. apply elem_of_cons in Hc. destruct Hc; contradiction.
Qed.

Lemma acceptAllHunks_signature (hs : list Hunk) :
  map signature (acceptAllHunks retrack hs)
  = map (fun p => (fst p, acceptedOf (snd p))) (map signature hs).
Proof.
  unfold acceptAllHunks. rewrite signature_acceptAll.
  apply map_ext_in. intros [i st] Hin. simpl.
  rewrite acceptSignature_all.
  rewrite bool_decide_eq_true_2; [reflexivity |].
  apply in_map_iff in Hin. destruct Hin as (h & Hh & Hin).
  injection Hh as <- _. apply list_elem_of_In, in_map. exact Hin.
Qed.

Lemma acceptAllHunks_states (hs : list Hunk) :
  map hunk_state (acceptAllHunks retrack hs)
  = map acceptedOf (map hunk_state hs) /\
  map hunk_id (acceptAllHunks retrack hs) = map hunk_id hs.
Proof.
  pose proof (acceptAllHunks_signature hs) as Hsig. split.
  - apply (f_equal (map snd)) in Hsig. rewrite !map_map in Hsig.
    rewrite map_map. exact Hsig.
  - apply (f_equal (map fst)) in Hsig. rewrite !map_map in Hsig.
    exact Hsig.
Qed.

Lemma acceptAllText_none_pending (hs : list Hunk) (textN text0 : string) :
  pendingHunks hs = [] -> acceptAllText moveChanges hs textN text0 = text0.
Proof.
  unfold acceptAllText, pendingHunks.
  induction hs as [| x xs IH]; intros Hp; [reflexivity |].
  simpl in *. destruct (isPending x); [discriminate |]. exact (IH Hp).
Qed.

Lemma saveUntitled_twice (u : option UntitledTextModel) :
  saveUntitled (saveUntitled u) = saveUntitled u.
Proof.
  destruct u as [[disposed dirty] |]; [| reflexivity].
  destruct disposed, dirty; reflexivity.
Qed.

(** When the editor still shows the snapshot, [apply()] accepts every
    pending hunk and leaves the others as they are, so that none is
    pending, and the editor's text is again the text of [textModel0].  A
    second [apply()] therefore replaces the text by itself: the two texts,
    the hunks' states and the untitled model stay as the first left
    them. *)
Theorem preview_apply_accepts_all (s : Preview) :
  pv_editorModel s = Some (pv_textModel0 s) ->
  map hunk_state (pv_hunks (pv_apply retrack moveChanges s))
  = map acceptedOf (map hunk_state (pv_hunks s)) /\
  map hunk_id (pv_hunks (pv_apply retrack moveChanges s))
  = map hunk_id (pv_hunks s) /\
  pendingHunks (pv_hunks (pv_apply retrack moveChanges s)) = [] /\
  pv_editorModel (pv_apply retrack moveChanges s)
  = Some (pv_textModel0 (pv_apply retrack moveChanges s)) /\
  pv_editorModel (pv_apply retrack moveChanges (pv_apply retrack moveChanges s))
  = pv_editorModel (pv_apply retrack moveChanges s) /\
  pv_textModel0 (pv_apply retrack moveChanges (pv_apply retrack moveChanges s))
  = pv_textModel0 (pv_apply retrack moveChanges s) /\
  map hunk_state
    (pv_hunks (pv_apply retrack moveChanges (pv_apply retrack moveChanges s)))
  = map hunk_state (pv_hunks (pv_apply retrack moveChanges s)) /\
  pv_untitled (pv_apply retrack moveChanges (pv_apply retrack moveChanges s))
  = pv_untitled (pv_apply retrack moveChanges s).
Proof.
  intros He.
  assert (Hnone : forall hs, pendingHunks (acceptAllHunks retrack hs) = []).
  { intros hs. apply length_zero_iff_nil.
    rewrite pendingHunks_length, (proj1 (acceptAllHunks_states hs)).
    induction (map hunk_state hs) as [| st sts IH]; [reflexivity |].
    destruct st; exact IH. }
  assert (Hfix : forall sts,
            List.filter pendingState sts = [] -> map acceptedOf sts = sts).
  { induction sts as [| st sts IH]; intros Hp; [reflexivity |].
    destruct st; simpl in *; try discriminate; f_equal; exact (IH Hp). }
  set (s1 := pv_apply retrack moveChanges s).
  assert (Hs1 : s1 = mkPreview (acceptAllHunks retrack (pv_hunks s))
                       (Some (acceptAllText moveChanges (pv_hunks s)
                                (pv_textModelN s) (pv_textModel0 s)))
                       (acceptAllText moveChanges (pv_hunks s)
                          (pv_textModelN s) (pv_textModel0 s))
                       (pv_textModelN s)
                       (pv_modelEffects s ++
                          [PushStackElement;
                           ReplaceFullRange
                             (acceptAllText moveChanges (pv_hunks s)
                                (pv_textModelN s) (pv_textModel0 s));
                           PushStackElement])
                       (saveUntitled (pv_untitled s))).
  { unfold s1, pv_apply. rewrite He, String.eqb_refl. reflexivity. }
  assert (Hp1 : pendingHunks (pv_hunks s1) = [])
    by (rewrite Hs1; apply Hnone).
  assert (He1 : pv_editorModel s1 = Some (pv_textModel0 s1))
    by (rewrite Hs1; reflexivity).
  split; [rewrite Hs1; apply acceptAllHunks_states |].
  split; [rewrite Hs1; apply acceptAllHunks_states |].
  split; [exact Hp1 |]. split; [exact He1 |].
  unfold pv_apply. rewrite He1, String.eqb_refl.
  cbn [pv_editorModel pv_textModel0 pv_hunks pv_untitled pv_textModelN
         pv_modelEffects].
  rewrite (acceptAllText_none_pending _ _ _ Hp1).
  split; [reflexivity |]. split; [reflexivity |]. split.
  - rewrite (proj1 (acceptAllHunks_states (pv_hunks s1))). apply Hfix.
    apply length_zero_iff_nil. rewrite <- pendingHunks_length, Hp1.
    reflexivity.
  - rewrite Hs1. apply saveUntitled_twice.
Qed.

End ApplyFacts.

(** ** Decorations while edits stream in *)

Lemma setAdd_elem (x y : Z) (set : list Z) :
  In y (setAdd x set) <-> y = x \/ In y set.
Proof.
  unfold setAdd. destruct (bool_decide_reflect (x ∈ set)) as [Hx | Hx].
  - apply list_elem_of_In in Hx. split; [tauto |]. intros [-> | Hy]; assumption.
  - rewrite in_app_iff. simpl. intuition.
Qed.

Lemma setAdd_NoDup (x : Z) (set : list Z) :
  NoDup set -> NoDup (setAdd x set).
Proof.
  intros Hnd. unfold setAdd.
  destruct (bool_decide_reflect (x ∈ set)) as [Hx | Hx]; [exact Hnd |].
  apply NoDup_app. split; [exact Hnd |]. split; [| apply NoDup_singleton].
  intros y Hy Hyx. apply list_elem_of_singleton in Hyx. congruence.
Qed.

Lemma setDelete_elem (x y : Z) (set : list Z) :
  In y (setDelete x set) <-> In y set /\ y <> x.
Proof.
  unfold setDelete. rewrite filter_In, negb_true_iff, Z.eqb_neq. reflexivity.
Qed.

Lemma setDelete_NoDup (x : Z) (set : list Z) :
  NoDup set -> NoDup (setDelete x set).
Proof.
  intros Hnd. induction Hnd as [| y set Hy Hnd IH]; [apply NoDup_nil_2 |].
  unfold setDelete in *. simpl. destruct (negb (y =? x)); [| exact IH].
  apply NoDup_cons. split; [| exact IH].
  intros Hin. apply Hy. apply list_elem_of_In in Hin.
  apply filter_In in Hin. apply list_elem_of_In. tauto.
Qed.

Section DecorationFacts.

Variable linesOf : Range -> list Z.

Lemma addLines_spec (ranges : list Range) (set : list Z) :
  NoDup set ->
  NoDup (fold_left (addLines linesOf) ranges set) /\
  forall line,
    In line (fold_left (addLines linesOf) ranges set)
    <-> (exists r, In r ranges /\ In line (linesOf r)) \/ In line set.
Proof.
  assert (Hone : forall ls set,
            NoDup set ->
            NoDup (fold_left (fun set line => setAdd line set) ls set) /\
            forall line,
              In line (fold_left (fun set line => setAdd line set) ls set)
              <-> In line ls \/ In line set).
  { induction ls as [| l ls IH]; intros set0 Hnd; simpl.
    - split; [exact Hnd | intros; tauto].
    - destruct (IH (setAdd l set0) (setAdd_NoDup l set0 Hnd)) as (Hn & Hi).
      split; [exact Hn |]. intros line. rewrite Hi, setAdd_elem.
      intuition. }
  revert set. induction ranges as [| r ranges IH]; intros set Hnd; simpl.
  - split; [exact Hnd |]. intros line. split; [tauto |].
    intros [(r & [] & _) | Hl]; exact Hl.
  - destruct (Hone (linesOf r) set Hnd) as (Hn & Hi).
    destruct (IH (addLines linesOf set r) Hn) as (Hn' & Hi').
    split; [exact Hn' |]. intros line. rewrite Hi'. unfold addLines.
    rewrite Hi. split.
    + intros [(r' & Hr' & Hl) | [Hl | Hl]]; eauto.
    + intros [(r' & [<- | Hr'] & Hl) | Hl]; eauto.
Qed.

Lemma deleteLines_spec (ranges : list Range) (set : list Z) :
  NoDup set ->
  NoDup (fold_left (deleteLines linesOf) ranges set) /\
  forall line,
    In line (fold_left (deleteLines linesOf) ranges set)
    <-> In line set /\ ~ exists r, In r ranges /\ In line (linesOf r).
Proof.
  assert (Hone : forall ls set,
            NoDup set ->
            NoDup (fold_left (fun set line => setDelete line set) ls set) /\
            forall line,
              In line (fold_left (fun set line => setDelete line set) ls set)
              <-> In line set /\ ~ In line ls).
  { induction ls as [| l ls IH]; intros set0 Hnd; simpl.
    - split; [exact Hnd | intros; tauto].
    - destruct (IH (setDelete l set0) (setDelete_NoDup l set0 Hnd)) as (Hn & Hi).
      split; [exact Hn |]. intros line. rewrite Hi, setDelete_elem.
      intuition. }
  revert set. induction ranges as [| r ranges IH]; intros set Hnd; simpl.
  - split; [exact Hnd |]. intros line. split; [| tauto].
    intros Hl. split; [exact Hl |]. intros (r & [] & _).
  - destruct (Hone (linesOf r) set Hnd) as (Hn & Hi).
    destruct (IH (deleteLines linesOf set r) Hn) as (Hn' & Hi').
    split; [exact Hn' |]. intros line. rewrite Hi'. unfold deleteLines.
    rewrite Hi. split.
    + intros ((Hl & Hr) & Hrest). split; [exact Hl |].
      intros (r' & [<- | Hr'] & Hl'); [contradiction |]. apply Hrest. eauto.
    + intros (Hl & Hnone). split; [split; [exact Hl |] |].
      * intros Hr. apply Hnone. eauto.
      * intros (r' & Hr' & Hl'). apply Hnone. eauto.
Qed.

(** Each report of progress decorates every line of the reported edits that
    no decoration covers yet, and only those, one whole-line decoration
    for each: no line is decorated twice in one report, however the
    reported ranges overlap. *)
Theorem one_decoration_for_each_new_line (existing edits : list Range) :
  NoDup (map startLineNumber (newDecorations linesOf existing edits)) /\
  (forall line,
     In line (map startLineNumber (newDecorations linesOf existing edits))
     <-> (exists e, In e edits /\ In line (linesOf e)) /\
         ~ exists x, In x existing /\ In line (linesOf x)) /\
  (forall d,
     In d (newDecorations linesOf existing edits) ->
     endLineNumber d = startLineNumber d /\
     startColumn d = 1 /\ endColumn d = Number_MAX_VALUE).
Proof.
  assert (Hlines : map startLineNumber (newDecorations linesOf existing edits)
                   = newLines linesOf existing edits).
  { unfold newDecorations. rewrite map_map. apply map_id. }
  rewrite Hlines. unfold newLines.
  destruct (addLines_spec edits [] (NoDup_nil_2)) as (Hn & Hi).
  destruct (deleteLines_spec existing _ Hn) as (Hn' & Hi').
  split; [exact Hn' |]. split.
  - intros line. rewrite Hi', Hi. simpl. tauto.
  - intros d Hd. unfold newDecorations in Hd. apply in_map_iff in Hd.
    destruct Hd as (line & <- & _). auto.
Qed.

End DecorationFacts.

(** ** The view zone of a hunk's original text *)

Lemma removeZone_last (id : string) (zones : list string) :
  ~ In id zones -> removeZone id (zones ++ [id]) = zones.
Proof.
  intros Hid. unfold removeZone. rewrite List.filter_app. simpl.
  rewrite String.eqb_refl. simpl. rewrite app_nil_r.
  induction zones as [| z zones IH]; [reflexivity |]. simpl in *.
  destruct (String.eqb_spec z id) as [-> | Hne]; [tauto |]. simpl.
  rewrite IH by tauto. reflexivity.
Qed.

Section ViewZoneFacts.

Variable zoneId : nat -> string.
Variable hunkRange : Range.
Variable zones : list string.
Variable added : nat.

Hypothesis zoneId_fresh : forall k, ~ In (zoneId (added + k)) zones.
Hypothesis zoneId_some : forall k, zoneId (added + k) <> EmptyString.

Lemma toggles_pairs (k : nat) :
  (toggles zoneId hunkRange (2 * k) (newZoneState zones added)
   = mkZoneState (if (k =? 0)%nat then Some EmptyString else None)
       (if (k =? 0)%nat then -1 else startLineNumber hunkRange - 1)
       zones (added + k) false) /\
  (toggles zoneId hunkRange (S (2 * k)) (newZoneState zones added)
   = mkZoneState (Some (zoneId (added + k)))
       (startLineNumber hunkRange - 1)
       (zones ++ [zoneId (added + k)]) (S (added + k)) false).
Proof.
  induction k as [| k (Heven & Hodd)].
  - rewrite !Nat.add_0_r. split; reflexivity.
  - assert (Hnext : toggles zoneId hunkRange (2 * S k)
                      (newZoneState zones added)
                    = mkZoneState None (startLineNumber hunkRange - 1) zones
                        (added + S k) false).
    { replace (2 * S k)%nat with (S (S (2 * k))) by lia.
      change (toggles zoneId hunkRange (S (S (2 * k)))
                (newZoneState zones added))
        with (toggleDiff zoneId hunkRange
                (toggles zoneId hunkRange (S (2 * k))
                   (newZoneState zones added))).
      rewrite Hodd. unfold toggleDiff. cbn [zs_viewZoneId truthy].
      destruct (String.eqb_spec (zoneId (added + k)) EmptyString) as [He | _];
        [destruct (zoneId_some k He) |].
      cbn [negb default zs_zones zs_added zs_afterLineNumber].
      rewrite removeZone_last by apply zoneId_fresh.
      f_equal. lia. }
    split; [exact Hnext |].
    change (toggles zoneId hunkRange (S (2 * S k)) (newZoneState zones added))
      with (toggleDiff zoneId hunkRange
              (toggles zoneId hunkRange (2 * S k) (newZoneState zones added))).
    rewrite Hnext. reflexivity.
Qed.

(** Toggling the diff of a hunk adds its view zone, below the line before
    the hunk, and toggling again removes that very zone: after an even
    number of toggles the editor holds the zones it held before, after an
    odd number one more, and [remove()] always leaves it with the zones
    it held before.  The context key is set to false by every toggle. *)
Theorem view_zone_toggles (n : nat) :
  (Nat.even n = true ->
   zs_zones (toggles zoneId hunkRange n (newZoneState zones added)) = zones /\
   truthy (zs_viewZoneId
             (toggles zoneId hunkRange n (newZoneState zones added))) = false) /\
  (Nat.even n = false ->
   zs_zones (toggles zoneId hunkRange n (newZoneState zones added))
   = zones ++ [zoneId (added + Nat.div2 n)] /\
   zs_viewZoneId (toggles zoneId hunkRange n (newZoneState zones added))
   = Some (zoneId (added + Nat.div2 n)) /\
   zs_afterLineNumber (toggles zoneId hunkRange n (newZoneState zones added))
   = startLineNumber hunkRange - 1) /\
  zs_zones
    (removeViewZone (toggles zoneId hunkRange n (newZoneState zones added)))
  = zones /\
  zs_showsDiff (toggles zoneId hunkRange n (newZoneState zones added)) = false.
Proof.
  destruct (Nat.Even_or_Odd n) as [(k & ->) | (k & ->)].
  - destruct (toggles_pairs k) as (-> & _).
    assert (He : Nat.even (2 * k) = true)
      by (apply Nat.even_spec; exists k; reflexivity).
    rewrite He. cbn [zs_zones zs_viewZoneId zs_showsDiff].
    split; [| split; [discriminate |]].
    + intros _. split; [reflexivity |]. destruct (k =? 0)%nat; reflexivity.
    + split; [| reflexivity]. unfold removeViewZone.
      cbn [zs_zones zs_viewZoneId]. destruct (k =? 0)%nat; reflexivity.
  - replace (2 * k + 1)%nat with (S (2 * k)) by lia.
    destruct (toggles_pairs k) as (_ & ->).
    assert (He : Nat.even (S (2 * k)) = false).
    { rewrite Nat.even_succ. apply negb_true_iff. rewrite Nat.negb_odd.
      apply Nat.even_spec. exists k. reflexivity. }
    assert (Hd : Nat.div2 (S (2 * k)) = k).
    { rewrite Nat.div2_div. replace (S (2 * k)) with (1 + k * 2)%nat by lia.
      rewrite Nat.div_add by discriminate. reflexivity. }
    rewrite He, Hd. cbn [zs_zones zs_viewZoneId zs_showsDiff zs_afterLineNumber].
    split; [discriminate |]. split; [auto |]. split; [| reflexivity].
    unfold removeViewZone. cbn [zs_zones zs_viewZoneId truthy default].
    destruct (String.eqb_spec (zoneId (added + k)) EmptyString) as [Hz | _];
      [destruct (zoneId_some k Hz) |].
    simpl. apply removeZone_last, zoneId_fresh.
Qed.

End ViewZoneFacts.

(** * The further properties at concrete inputs *)

Lemma nestedHunks_distinct : NoDup (map hunk_id nestedHunks).
Proof.
  simpl. apply NoDup_cons. split.
  - intros Hin. apply elem_of_cons in Hin. destruct Hin as [Heq | Hin];
      [discriminate Heq |].
    apply list_elem_of_singleton in Hin. discriminate Hin.
  - apply NoDup_cons. split; [| apply NoDup_singleton].
    intros Hin. apply list_elem_of_singleton in Hin. discriminate Hin.
Qed.

(** The zone on line 13, inside two of the hunks. *)
Lemma hunk_around_zone_is_selected_witness :
  (exists h,
     In h nestedHunks /\ hunk_state h = Pending /\
     startLineNumber (hunk_rangeN h) < 13 < endLineNumber (hunk_rangeN h) /\
     lp_actions
       (fst (_updateDiffZones plainDelta moveZoneTo (lp_new nestedHunks 13)))
     = NearestActions (hunk_id h)) /\
  (exists h,
     In h nestedHunks /\ hunk_state h = Pending /\
     startLineNumber (hunk_rangeN h) < 13 < endLineNumber (hunk_rangeN h) /\
     ls_actions (fst (renderHunks plainDelta moveZoneTo (ls_new nestedHunks 13)))
     = NearestActions (hunk_id h)).
Proof.
  apply (hunk_around_zone_is_selected plainDelta moveZoneTo
           (lp_new nestedHunks 13) (ls_new nestedHunks 13)
           (mkHunk 1 (mkRange 10 1 20 1) Pending)
           (mkHunk 1 (mkRange 10 1 20 1) Pending) nestedHunks_distinct).
  - left. reflexivity.
  - reflexivity.
  - split; reflexivity.
  - left. reflexivity.
  - reflexivity.
  - split; reflexivity.
Defined.

(** Discarding the nearer of the two example hunks. *)
Lemma actions_move_to_next_hunk_witness :
  lp_actions
    (lp_act plainDelta moveZoneTo keepRanges DiscardHunk
       (fst (_updateDiffZones plainDelta moveZoneTo (lp_new exampleHunks 25))))
  = NearestActions 2 /\
  ls_actions
    (ls_act plainDelta moveZoneTo keepRanges DiscardHunk
       (fst (renderHunks plainDelta moveZoneTo (ls_new exampleHunks 25))))
  = NearestActions 2.
Proof.
  destruct (actions_move_to_next_hunk plainDelta moveZoneTo keepRanges
              keepRanges_ids keepRanges_states DiscardHunk
              (lp_new exampleHunks 25) (ls_new exampleHunks 25)
              exampleHunks_distinct exampleHunks_distinct)
    as (_ & _); [vm_compute; lia | vm_compute; lia |].
  split; reflexivity.
Defined.

(** Discarding both example hunks: the session is not accepted. *)
Lemma accepted_iff_a_hunk_was_accepted_witness :
  lp_events
    (lp_run plainDelta moveZoneTo keepRanges [DiscardHunk; DiscardHunk]
       (fst (lp_renderChanges plainDelta moveZoneTo (lp_new exampleHunks 25))))
  = [DidAccept]
  <-> (exists h, In h exampleHunks /\ hunk_state h = Accepted)
      \/ In AcceptHunk [DiscardHunk; DiscardHunk].
Proof.
  apply (accepted_iff_a_hunk_was_accepted plainDelta moveZoneTo keepRanges
           keepRanges_ids keepRanges_states exampleHunks 25
           [DiscardHunk; DiscardHunk] exampleHunks_distinct).
  - discriminate.
  - reflexivity.
Defined.

(** Three actions after a rendering over two pending hunks. *)
Lemma diff_zones_are_reused_witness :
  lp_diffZonePool
    (lp_run plainDelta moveZoneTo keepRanges
       [AcceptHunk; DiscardHunk; AcceptHunk]
       (fst (_updateDiffZones plainDelta moveZoneTo (lp_new exampleHunks 25))))
  = lp_diffZonePool
      (fst (_updateDiffZones plainDelta moveZoneTo (lp_new exampleHunks 25))).
Proof.
  apply (diff_zones_are_reused plainDelta moveZoneTo keepRanges
           keepRanges_states (lp_new exampleHunks 25)
           [AcceptHunk; DiscardHunk; AcceptHunk]).
Defined.

(** The accepted hunk of the nested store, seen for the first time. *)
Lemma display_entry_after_render_witness :
  ls_hunkDisplayData
    (fst (renderHunks plainDelta moveZoneTo (ls_new nestedHunks 13))) !! 3%nat
  = Some (mkHunkDisplayData true 27 (mkPosition 39 1)).
Proof.
  apply (display_entry_after_render plainDelta moveZoneTo
           (ls_new nestedHunks 13) (mkHunk 3 (mkRange 40 1 42 1) Accepted)
           nestedHunks_distinct).
  right. right. left. reflexivity.
Defined.

(** [cancel()] on the nested store, whose third hunk is accepted. *)
Lemma render_after_cancel_witness :
  lp_events
    (fst (_updateDiffZones plainDelta moveZoneTo
            (lp_cancel keepRanges (lp_new nestedHunks 13))))
  = [DidAccept].
Proof.
  destruct (render_after_cancel plainDelta moveZoneTo keepRanges
              keepRanges_ids keepRanges_states (lp_new nestedHunks 13)
              (ls_new nestedHunks 13)) as ((_ & _ & _ & Hev) & _).
  exact Hev.
Defined.

(** [apply()] of a preview that still shows the snapshot. *)
Lemma preview_apply_accepts_all_witness :
  map hunk_state
    (pv_hunks
       (pv_apply keepRanges (fun _ textN _ => textN)
          (mkPreview nestedHunks (Some "original"%string) "original"%string
             "proposed"%string [] None)))
  = [Accepted; Accepted; Accepted].
Proof.
  destruct (preview_apply_accepts_all keepRanges (fun _ textN _ => textN)
              keepRanges_ids keepRanges_states
              (mkPreview nestedHunks (Some "original"%string)
                 "original"%string "proposed"%string [] None))
    as (Hst & _); [reflexivity |].
  exact Hst.
Defined.

Lemma unaryZoneId_some (k : nat) : unaryZoneId (0 + k) <> EmptyString.
Proof. discriminate. Qed.

Lemma unaryZoneId_fresh (k : nat) :
  ~ In (unaryZoneId (0 + k)) ["other"%string].
Proof. intros [Heq | []]. discriminate Heq. Qed.

(** Three toggles in an editor that holds one other zone. *)
Lemma view_zone_toggles_witness :
  zs_zones
    (toggles unaryZoneId (lines 10 12) 3 (newZoneState ["other"%string] 0))
  = ["other"%string; "zi"%string] /\
  zs_zones
    (removeViewZone
       (toggles unaryZoneId (lines 10 12) 3 (newZoneState ["other"%string] 0)))
  = ["other"%string].
Proof.
  destruct (view_zone_toggles unaryZoneId (lines 10 12) ["other"%string] 0
              unaryZoneId_fresh unaryZoneId_some 3)
    as (_ & Hodd & Hremove & _).
  destruct (Hodd eq_refl) as (Hzones & _).
  split; [exact Hzones | exact Hremove].
Defined.

(** A rendering over the example store returns a position and fires
    nothing. *)
Lemma position_returned_iff_pending_witness :
  lp_events (fst (lp_renderChanges plainDelta moveZoneTo (lp_new exampleHunks 25)))
  = [] /\
  ls_events (fst (ls_renderChanges plainDelta moveZoneTo (ls_new exampleHunks 25)))
  = [].
Proof.
  destruct (position_returned_iff_pending plainDelta moveZoneTo
              (lp_new exampleHunks 25) (ls_new exampleHunks 25))
    as (_ & _ & Hlp & Hls).
  split; [apply Hlp | apply Hls]; discriminate.
Defined.
